(** * Khathabook: credential store, ledger store and aggregate views

    A shallow embedding of [Khathabook.py].  The two SQLite tables are
    lists of rows in insertion order together with their AUTOINCREMENT
    counters; every function that executes SQL takes the database and
    returns the new one.  A pandas DataFrame is the list of its rows, a
    Series with an index is an association list.

    Modelling choices that are not visible in the Python text:
    - in the stores and the page script, [TEXT] cells are strings (byte
      strings, compared bytewise as SQLite's BINARY collation does) and
      [REAL] amounts are exact rationals ([Q]), which the stores only
      carry from the edit buffer to the frame;
    - the sums of the summary and the charts are taken again on the
      frame as pandas holds it (module [frame]): binary64 amounts,
      cells that can be missing, and the two pandas summation routines
      as parameters;
    - the save handler is taken again on the edit buffer as the data
      editor returns it (module [data_editor]), where a cell can be
      missing and is stored as NULL;
    - [hashlib.sha256(..).hexdigest()], the textual form of a float and
      the failure of the pie chart block are functions supplied from
      outside (section variables). *)

From Stdlib Require Import ZArith QArith List String Ascii Bool Lia.
From Stdlib Require Import OrderedTypeEx Sorted DecimalString.
From Stdlib Require PrimFloat.
Import ListNotations.

Set Implicit Arguments.
Local Open Scope string_scope.
Local Open Scope Z_scope.

(** ** Persisted schema *)

(** [users(id INTEGER PRIMARY KEY AUTOINCREMENT, username TEXT UNIQUE,
    password_hash TEXT)] *)
Module users.
Record row : Type := mk
  { id : Z;
    username : string;
    password_hash : string }.
End users.

(** [transactions(id, user_id, date, category, description, type, amount)] *)
Module transactions.
Record row : Type := mk
  { id : Z;
    user_id : Z;
    date : string;
    category : string;
    description : string;
    type : string;
    amount : Q }.
End transactions.

(** The connection [conn]: both tables and the [sqlite_sequence] entry
    of each (the largest id handed out so far, which no id in the
    table exceeds; AUTOINCREMENT gives the next row that number plus
    one). *)
Record database : Type := mk_database
  { users_table : list users.row;
    users_seq : Z;
    transactions_table : list transactions.row;
    transactions_seq : Z }.

(** The state right after the two [CREATE TABLE IF NOT EXISTS]. *)
Definition empty_database : database :=
  {| users_table := []; users_seq := 0;
     transactions_table := []; transactions_seq := 0 |}.

(** Outcome of one [c.execute]: the statement ran, or SQLite aborted it
    on a constraint and raised [sqlite3.IntegrityError]. *)
Inductive executed (A : Type) : Type :=
| Done (a : A)
| IntegrityError.
Arguments IntegrityError {A}.

(** ** Credential store *)

Section Credentials.

(** [hashlib.sha256(password.encode()).hexdigest()] *)
Variable sha256_hexdigest : string -> string.

Definition hash_password (password : string) : string :=
  sha256_hexdigest password.

(** Is there a row with this username (the UNIQUE index lookup)? *)
Definition username_taken (username : string) (db : database) : bool :=
  existsb (fun u => String.eqb (users.username u) username) (users_table db).

(** [INSERT INTO users (username, password_hash) VALUES (?,?)] *)
Definition insert_user (username digest : string) (db : database)
  : executed database :=
  if username_taken username db then IntegrityError
  else
    let new_id := users_seq db + 1 in
    Done {| users_table :=
              users_table db ++ [users.mk new_id username digest];
            users_seq := new_id;
            transactions_table := transactions_table db;
            transactions_seq := transactions_seq db |}.

(** [register_user]: [True] after the insert and commit, [False] when
    the insert raised [IntegrityError]. *)
Definition register_user (username password : string) (db : database)
  : bool * database :=
  match insert_user username (hash_password password) db with
  | Done db' => (true, db')
  | IntegrityError => (false, db)
  end.

(** [login_user]: [fetchone] of
    [SELECT * FROM users WHERE username=? AND password_hash=?]. *)
Definition login_user (username password : string) (db : database)
  : option users.row :=
  find (fun u => String.eqb (users.username u) username
                 && String.eqb (users.password_hash u) (hash_password password))
       (users_table db).

End Credentials.

(** ** Ledger store *)

(** One row of the edit buffer [edited_df]: the four columns of
    [template_df]. *)
Module editor.
Record row : Type := mk
  { Category : string;
    Description : string;
    Type_ : string;
    Amount : Q }.
End editor.

(** One row of the frame handed to [add_transactions]: the edit buffer
    after [edited_df["Date"] = ...]. *)
Module batch.
Record row : Type := mk
  { Category : string;
    Description : string;
    Type_ : string;
    Amount : Q;
    Date : string }.
End batch.

(** [SELECT * FROM transactions WHERE user_id=?], as a frame. *)
Definition get_transactions (user_id : Z) (db : database)
  : list transactions.row :=
  filter (fun t => Z.eqb (transactions.user_id t) user_id)
         (transactions_table db).

(** One [INSERT INTO transactions (user_id,date,category,description,
    type,amount) VALUES (?,?,?,?,?,?)].  The table has no constraint
    that an insert can violate (foreign keys are not enforced on this
    connection), so the statement always runs. *)
Definition insert_transaction (user_id : Z) (r : batch.row) (db : database)
  : database :=
  let new_id := transactions_seq db + 1 in
  {| users_table := users_table db;
     users_seq := users_seq db;
     transactions_table :=
       transactions_table db ++
       [transactions.mk new_id user_id (batch.Date r) (batch.Category r)
          (batch.Description r) (batch.Type_ r) (batch.Amount r)];
     transactions_seq := new_id |}.

(** [add_transactions]: the loop over [df.iterrows()], then commit. *)
Definition add_transactions (user_id : Z) (df : list batch.row) (db : database)
  : database :=
  fold_left (fun db r => insert_transaction user_id r db) df db.

(** ** The clock *)

(** The value of [datetime.now()]. *)
Record datetime : Type := mk_datetime
  { year : nat; month : nat; day : nat;
    hour : nat; minute : nat; second : nat }.

Definition digit (n : nat) : ascii := ascii_of_nat (48 + n mod 10).

Definition two_digits (n : nat) : string :=
  String (digit (n / 10)) (String (digit n) EmptyString).

Definition four_digits (n : nat) : string :=
  String (digit (n / 1000)) (String (digit (n / 100)) (two_digits n)).

(** [strftime("%Y-%m-%d %H:%M")]: the seconds are dropped. *)
Definition strftime_minute (t : datetime) : string :=
  four_digits (year t) ++ "-" ++ two_digits (month t) ++ "-" ++
  two_digits (day t) ++ " " ++ two_digits (hour t) ++ ":" ++
  two_digits (minute t).

(** ** The save handler *)

Definition with_Date (d : string) (r : editor.row) : batch.row :=
  batch.mk (editor.Category r) (editor.Description r) (editor.Type_ r)
           (editor.Amount r) d.

(** [edited_df[edited_df["Description"] != empty string]]: the rows
    whose description is not the empty string, in order. *)
Definition drop_empty_description (edited_df : list editor.row)
  : list editor.row :=
  filter (fun r => negb (String.eqb (editor.Description r) EmptyString)) edited_df.

(** [df.empty] of a frame that has columns: no rows. *)
Definition empty {A : Type} (df : list A) : bool :=
  match df with [] => true | _ :: _ => false end.

(** The body of [if st.button("Save Transactions")]. *)
Definition save_transactions (now : datetime) (user_id : Z)
    (edited_df : list editor.row) (db : database) : database :=
  let edited_df := drop_empty_description edited_df in
  if negb (empty edited_df) then
    let edited_df := map (with_Date (strftime_minute now)) edited_df in
    add_transactions user_id edited_df db
  else db.

(** ** Aggregate views *)

(** [Series.sum()]: the entries added up from the first to the last. *)
Definition series_sum (s : list Q) : Q :=
  fold_left Qplus s 0%Q.

Definition of_type (k : string) (df : list transactions.row)
  : list transactions.row :=
  filter (fun t => String.eqb (transactions.type t) k) df.

(** [df[df["type"]=="Income"]["amount"].sum()] *)
Definition income (df : list transactions.row) : Q :=
  series_sum (map transactions.amount (of_type "Income" df)).

(** [df[df["type"]=="Expense"]["amount"].sum()] *)
Definition expense (df : list transactions.row) : Q :=
  series_sum (map transactions.amount (of_type "Expense" df)).

(** [balance = income - expense] *)
Definition balance (df : list transactions.row) : Q :=
  (income df - expense df)%Q.

(** [groupby(key)["amount"].sum()]: a Series indexed by the distinct
    keys in ascending order; each group adds its rows in frame order. *)
Section GroupBy.

Variable K : Type.
Variable compare : K -> K -> comparison.

Fixpoint add_to_group (k : K) (v : Q) (s : list (K * Q)) : list (K * Q) :=
  match s with
  | [] => [(k, v)]
  | (k', v') :: s' =>
      match compare k k' with
      | Lt => (k, v) :: s
      | Eq => (k', (v' + v)%Q) :: s'
      | Gt => (k', v') :: add_to_group k v s'
      end
  end.

Definition groupby_sum (rows : list (K * Q)) : list (K * Q) :=
  fold_left (fun s kv => add_to_group (fst kv) (snd kv) s) rows [].

End GroupBy.

(** [expense_df.groupby("category")["amount"].sum()] *)
Definition grouped (df : list transactions.row) : list (string * Q) :=
  groupby_sum String.compare
    (map (fun t => (transactions.category t, transactions.amount t))
         (of_type "Expense" df)).

(** A parsed [date] cell: what [pd.to_datetime] makes of a string
    written by [strftime_minute]. *)
Record Timestamp : Type := mk_Timestamp
  { ts_year : nat; ts_month : nat; ts_day : nat;
    ts_hour : nat; ts_minute : nat }.

Definition digit_value (c : ascii) : option nat :=
  let n := nat_of_ascii c in
  if ((48 <=? n) && (n <=? 57))%nat then Some (n - 48)%nat else None.

Fixpoint number_of_digits (acc : nat) (cs : list ascii) : option nat :=
  match cs with
  | [] => Some acc
  | c :: cs' =>
      match digit_value c with
      | Some d => number_of_digits (10 * acc + d)%nat cs'
      | None => None
      end
  end.

Definition leap_year (y : nat) : bool :=
  ((y mod 4 =? 0) && (negb (y mod 100 =? 0) || (y mod 400 =? 0)))%nat.

Definition days_in_month (y m : nat) : nat :=
  match m with
  | 1 | 3 | 5 | 7 | 8 | 10 | 12 => 31
  | 4 | 6 | 9 | 11 => 30
  | 2 => if leap_year y then 29 else 28
  | _ => 0
  end%nat.

Definition valid_Timestamp (t : Timestamp) : bool :=
  ((1 <=? ts_day t) && (ts_day t <=? days_in_month (ts_year t) (ts_month t))
   && (ts_hour t <? 24) && (ts_minute t <? 60))%nat.

(** [pd.to_datetime] on one cell of the form [YYYY-MM-DD HH:MM]; [None]
    stands for the parser raising. *)
Definition to_datetime (s : string) : option Timestamp :=
  match list_ascii_of_string s with
  | [y1; y2; y3; y4; s1; m1; m2; s2; d1; d2; s3; h1; h2; s4; n1; n2] =>
      if (Ascii.eqb s1 "-" && Ascii.eqb s2 "-" && Ascii.eqb s3 " "
          && Ascii.eqb s4 ":")%bool
      then
        match number_of_digits 0 [y1; y2; y3; y4],
              number_of_digits 0 [m1; m2],
              number_of_digits 0 [d1; d2],
              number_of_digits 0 [h1; h2],
              number_of_digits 0 [n1; n2] with
        | Some y, Some m, Some d, Some h, Some n =>
            let t := mk_Timestamp y m d h n in
            if valid_Timestamp t then Some t else None
        | _, _, _, _, _ => None
        end
      else None
  | _ => None
  end.

Definition then_compare (c1 c2 : comparison) : comparison :=
  match c1 with Eq => c2 | _ => c1 end.

(** Chronological order of timestamps. *)
Definition Timestamp_compare (a b : Timestamp) : comparison :=
  then_compare (Nat.compare (ts_year a) (ts_year b))
 (then_compare (Nat.compare (ts_month a) (ts_month b))
 (then_compare (Nat.compare (ts_day a) (ts_day b))
 (then_compare (Nat.compare (ts_hour a) (ts_hour b))
               (Nat.compare (ts_minute a) (ts_minute b))))).

(** [df_sorted]: every row with its [date] cell parsed; the whole
    assignment fails when one cell does not parse. *)
Fixpoint parse_dates (df : list transactions.row)
  : option (list (Timestamp * transactions.row)) :=
  match df with
  | [] => Some []
  | t :: df' =>
      match to_datetime (transactions.date t), parse_dates df' with
      | Some d, Some rest => Some ((d, t) :: rest)
      | _, _ => None
      end
  end.

(** [df_sorted[df_sorted["type"]=="Expense"].groupby("date")["amount"].sum()] *)
Definition daily_expense (df : list transactions.row)
  : option (list (Timestamp * Q)) :=
  match parse_dates df with
  | Some df_sorted =>
      Some (groupby_sum Timestamp_compare
              (map (fun dt => (fst dt, transactions.amount (snd dt)))
                   (filter (fun dt =>
                              String.eqb (transactions.type (snd dt)) "Expense")
                           df_sorted)))
  | None => None
  end.

(** The calendar day a timestamp falls on. *)
Definition calendar_date (t : Timestamp) : nat * nat * nat :=
  (ts_year t, ts_month t, ts_day t).

(** ** CSV export *)

Definition quote_char : ascii := ascii_of_nat 34.
Definition line_feed : ascii := ascii_of_nat 10.
Definition carriage_return : ascii := ascii_of_nat 13.
Definition comma : ascii := ascii_of_nat 44.

Definition special (c : ascii) : bool :=
  Ascii.eqb c comma || Ascii.eqb c quote_char
  || Ascii.eqb c line_feed || Ascii.eqb c carriage_return.

Fixpoint needs_quoting (s : string) : bool :=
  match s with
  | EmptyString => false
  | String c s' => special c || needs_quoting s'
  end.

Fixpoint double_quotes (s : string) : string :=
  match s with
  | EmptyString => EmptyString
  | String c s' =>
      if Ascii.eqb c quote_char
      then String quote_char (String quote_char (double_quotes s'))
      else String c (double_quotes s')
  end.

(** One cell as the [csv] writer emits it under minimal quoting. *)
Definition csv_field (s : string) : string :=
  if needs_quoting s
  then String quote_char (double_quotes s ++ String quote_char EmptyString)
  else s.

(** One record: the cells joined by commas, then the line terminator
    (a line feed, as on a POSIX host). *)
Definition csv_record (cells : list string) : string :=
  String.concat (String comma EmptyString) (map csv_field cells)
  ++ String line_feed EmptyString.

(** Text of an INTEGER cell. *)
Definition int_repr (z : Z) : string :=
  DecimalString.NilZero.string_of_int (Z.to_int z).

(** The columns of [SELECT * FROM transactions], in table order. *)
Definition columns : list string :=
  ["id"; "user_id"; "date"; "category"; "description"; "type"; "amount"].

(** The column list the table on the page shows:
    [df[["date","category","description","type","amount"]]]. *)
Definition displayed_columns : list string :=
  ["date"; "category"; "description"; "type"; "amount"].

Section CsvExport.

(** Text of a REAL cell, as pandas formats a float. *)
Variable float_repr : Q -> string.

Definition cells (t : transactions.row) : list string :=
  [int_repr (transactions.id t); int_repr (transactions.user_id t);
   transactions.date t; transactions.category t;
   transactions.description t; transactions.type t;
   float_repr (transactions.amount t)].

(** [df.to_csv(index=False)] *)
Definition to_csv (df : list transactions.row) : string :=
  csv_record columns
  ++ String.concat EmptyString (map (fun t => csv_record (cells t)) df).

(** [.encode("utf-8")]: the text is held as its UTF-8 bytes. *)
Definition encode_utf8 (s : string) : list Byte.byte :=
  list_byte_of_string s.

End CsvExport.

(** ** Reading the artefacts back (used to state the properties) *)

(** The text before the first line feed. *)
Fixpoint first_line (s : string) : string :=
  match s with
  | EmptyString => EmptyString
  | String c s' =>
      if Ascii.eqb c line_feed then EmptyString else String c (first_line s')
  end.

(** Number of records in a CSV text: line feeds outside quoted cells.
    [quoted] tells whether the scan is inside a quoted cell. *)
Fixpoint count_records (quoted : bool) (s : string) : nat :=
  match s with
  | EmptyString => 0
  | String c s' =>
      if Ascii.eqb c quote_char then count_records (negb quoted) s'
      else if Ascii.eqb c line_feed && negb quoted
           then S (count_records quoted s')
           else count_records quoted s'
  end.

(** Whitespace as [str.isspace] sees it on ASCII text. *)
Definition is_space (c : ascii) : bool :=
  let n := nat_of_ascii c in
  ((n =? 32) || ((9 <=? n) && (n <=? 13)))%nat.

Fixpoint all_space (s : string) : bool :=
  match s with
  | EmptyString => true
  | String c s' => is_space c && all_space s'
  end.

(** A description that consists solely of whitespace: at least one
    character, all of them whitespace. *)
Definition whitespace_only (s : string) : bool :=
  match s with
  | EmptyString => false
  | String _ _ => all_space s
  end.

(** The rows that a batch adds to the table, numbered from [seq]. *)
Fixpoint stored_rows (user_id seq : Z) (df : list batch.row)
  : list transactions.row :=
  match df with
  | [] => []
  | r :: df' =>
      transactions.mk (seq + 1) user_id (batch.Date r) (batch.Category r)
        (batch.Description r) (batch.Type_ r) (batch.Amount r)
      :: stored_rows user_id (seq + 1) df'
  end.

(** ** Reading a grouped Series (used to state the properties) *)

Section GroupByReading.

Variable K : Type.
Variable compare : K -> K -> comparison.

(** The value a Series holds at key [k], if [k] is in its index. *)
Fixpoint value_at (k : K) (s : list (K * Q)) : option Q :=
  match s with
  | [] => None
  | (k', v') :: s' =>
      match compare k k' with
      | Eq => Some v'
      | _ => value_at k s'
      end
  end.

(** What one group accumulates: starting from [acc], the values of the
    rows with key [k] added in frame order. *)
Fixpoint accumulate (k : K) (acc : option Q) (rows : list (K * Q))
  : option Q :=
  match rows with
  | [] => acc
  | (k', v) :: rows' =>
      match compare k k' with
      | Eq => accumulate k
                (Some match acc with Some w => (w + v)%Q | None => v end)
                rows'
      | _ => accumulate k acc rows'
      end
  end.

(** The sum of the values of the rows with key [k]. *)
Fixpoint group_total (k : K) (rows : list (K * Q)) : Q :=
  match rows with
  | [] => 0%Q
  | (k', v) :: rows' =>
      match compare k k' with
      | Eq => (v + group_total k rows')%Q
      | _ => group_total k rows'
      end
  end.

(** The index of a Series ascends strictly. *)
Definition ascending (s : list (K * Q)) : Prop :=
  StronglySorted (fun a b => compare a b = Lt) (map fst s).

End GroupByReading.

(** A comparison function that decides equality and whose [Lt] is a
    strict order. *)
Class LawfulCompare {K : Type} (compare : K -> K -> comparison) : Prop :=
  { compare_eq : forall a b, compare a b = Eq <-> a = b;
    compare_antisym : forall a b, compare b a = CompOpp (compare a b);
    compare_trans : forall a b c,
        compare a b = Lt -> compare b c = Lt -> compare a c = Lt }.

(** ** Example data *)

(** A stand-in digest, to run the credential store on concrete input. *)
Definition example_digest (password : string) : string :=
  "digest:" ++ password.

(** A stand-in for the text of a float, right for whole amounts
    ([150] prints as [150.0]). *)
Definition example_float_repr (q : Q) : string :=
  int_repr (Qnum q / Zpos (Qden q)) ++ ".0".

Definition alice_registered : database :=
  snd (register_user example_digest "alice" "secret" empty_database).

Definition example_now : datetime := mk_datetime 2024 3 15 10 30 42.

(** User 1 saves a breakfast at 09:00:12 and a lunch at 13:30:47 of
    the same day. *)
Definition morning : datetime := mk_datetime 2024 3 15 9 0 12.
Definition afternoon : datetime := mk_datetime 2024 3 15 13 30 47.

Definition same_day_ledger : database :=
  save_transactions afternoon 1 [editor.mk "Food" "lunch" "Expense" 150]
    (save_transactions morning 1 [editor.mk "Food" "breakfast" "Expense" 50]
       empty_database).

(** The two rows these saves leave in the table. *)
Definition same_day_expenses : list transactions.row :=
  [ transactions.mk 1 1 "2024-03-15 09:00" "Food" "breakfast" "Expense" 50;
    transactions.mk 2 1 "2024-03-15 13:30" "Food" "lunch" "Expense" 150 ].

(** ** The edit buffer the page starts from *)

Definition categories : list string :=
  ["Food"; "Travel"; "Rent"; "Shopping"; "Salary"; "Other"].

(** [template_df]: one row, first category, empty description,
    [Expense], amount [0.0]. *)
Definition template_df : list editor.row :=
  [editor.mk (hd EmptyString categories) EmptyString "Expense" 0].

(** ** What the store keeps true *)

(** Ids handed out by an AUTOINCREMENT counter that now stands at
    [seq]: ascending in table order, positive, none above [seq]. *)
Definition ids_issued (seq : Z) (ids : list Z) : Prop :=
  StronglySorted Z.lt ids /\ Forall (fun i => 0 < i <= seq) ids.

Definition store_invariant (db : database) : Prop :=
  NoDup (map users.username (users_table db)) /\
  0 <= users_seq db /\
  ids_issued (users_seq db) (map users.id (users_table db)) /\
  0 <= transactions_seq db /\
  ids_issued (transactions_seq db)
             (map transactions.id (transactions_table db)).

(** The cells of a stored row that come from the batch. *)
Definition entered_cells (t : transactions.row)
  : string * string * string * string * Q :=
  (transactions.date t, transactions.category t, transactions.description t,
   transactions.type t, transactions.amount t).

(** A users row carries this username and the digest of this password. *)
Definition credentials_match (sha256_hexdigest : string -> string)
    (username password : string) (u : users.row) : Prop :=
  users.username u = username /\
  users.password_hash u = hash_password sha256_hexdigest password.

(** The cells of a batch row, in the order of [entered_cells]. *)
Definition batch_cells (r : batch.row)
  : string * string * string * string * Q :=
  (batch.Date r, batch.Category r, batch.Description r, batch.Type_ r,
   batch.Amount r).

(** [n] consecutive ids after [seq]. *)
Fixpoint next_ids (seq : Z) (n : nat) : list Z :=
  match n with
  | O => []
  | S n' => (seq + 1) :: next_ids (seq + 1) n'
  end.

(** ** The remaining chart and what the charts are read against *)

(** [totals = df.groupby("type")["amount"].sum()], the pie chart. *)
Definition totals (df : list transactions.row) : list (string * Q) :=
  groupby_sum String.compare
    (map (fun t => (transactions.type t, transactions.amount t)) df).

(** The minute a clock reading falls in. *)
Definition minute_of (t : datetime) : Timestamp :=
  mk_Timestamp (year t) (month t) (day t) (hour t) (minute t).

(** A clock reading the program can get: a four-digit year and a real
    calendar date and time of day. *)
Definition clock_reading (t : datetime) : Prop :=
  (1 <= year t / 1000 < 10)%nat /\ valid_Timestamp (minute_of t) = true.

(** ** Reading a CSV text back

    A reader for the dialect the export is written in: cells separated
    by commas, records ended by a line feed, a cell that starts with a
    double quote runs to the next single double quote, and a doubled
    double quote inside it stands for one. *)

Inductive reader_state : Type :=
| record_start
| cell_start
| in_cell
| in_quoted
| after_quote.

(** Put a character in front of the first cell of the first record. *)
Definition push (c : ascii) (records : list (list string))
  : list (list string) :=
  match records with
  | (cell :: cells) :: rest => (String c cell :: cells) :: rest
  | _ => records
  end.

(** Open an empty cell in front of the first record. *)
Definition new_cell (records : list (list string)) : list (list string) :=
  match records with
  | cells :: rest => (EmptyString :: cells) :: rest
  | [] => [[EmptyString]]
  end.

(** The records of a text, read from the given state; the cell and the
    record that are open at the end of the text are closed there. *)
Fixpoint read_from (st : reader_state) (s : string) : list (list string) :=
  match s with
  | EmptyString =>
      match st with
      | record_start => []
      | _ => [[EmptyString]]
      end
  | String c s' =>
      match st with
      | in_quoted =>
          if Ascii.eqb c quote_char then read_from after_quote s'
          else push c (read_from in_quoted s')
      | after_quote =>
          if Ascii.eqb c quote_char then push c (read_from in_quoted s')
          else if Ascii.eqb c comma then new_cell (read_from cell_start s')
          else if Ascii.eqb c line_feed
               then [EmptyString] :: read_from record_start s'
               else push c (read_from in_cell s')
      | in_cell =>
          if Ascii.eqb c comma then new_cell (read_from cell_start s')
          else if Ascii.eqb c line_feed
               then [EmptyString] :: read_from record_start s'
               else push c (read_from in_cell s')
      | cell_start =>
          if Ascii.eqb c quote_char then read_from in_quoted s'
          else if Ascii.eqb c comma then new_cell (read_from cell_start s')
          else if Ascii.eqb c line_feed
               then [EmptyString] :: read_from record_start s'
               else push c (read_from in_cell s')
      | record_start =>
          if Ascii.eqb c quote_char then read_from in_quoted s'
          else if Ascii.eqb c comma then new_cell (read_from cell_start s')
          else if Ascii.eqb c line_feed then [] :: read_from record_start s'
          else push c (read_from in_cell s')
      end
  end.

Definition read_csv (s : string) : list (list string) :=
  read_from record_start s.

(** Put a text in front of the first cell of the first record. *)
Fixpoint push_string (s : string) (records : list (list string))
  : list (list string) :=
  match s with
  | EmptyString => records
  | String c s' => push c (push_string s' records)
  end.

(** ** The page script

    One run of the Streamlit script: the session state of the browser
    session it runs for, the shared connection, and the one button (if
    any) whose press caused the run, with the widget values read in
    that run. *)

(** [st.session_state]: the keys [logged_in] and [user_id]; [user_id]
    is absent ([None]) until the first successful login. *)
Module session.
Record state : Type := mk
  { logged_in : bool;
    user_id : option Z }.
End session.

(** The session state after [st.session_state["logged_in"] = False]
    of the first run. *)
Definition new_session : session.state := session.mk false None.

Inductive pressed : Type :=
| no_button
| Register (username password : string)
| Login (username password : string)
| Save_Transactions (edited_df : list editor.row) (now : datetime).

(** The message boxes a run can show. *)
Inductive shown : Type :=
| Account_created
| Username_already_exists
| Welcome (username : string)
| Invalid_username_or_password
| transactions_saved (n : nat)
| No_transactions_yet.

(** What the main block renders for a non-empty frame. *)
Record summary : Type := mk_summary
  { metrics : Q * Q * Q;
    dataframe : list (string * string * string * string * Q);
    pie_chart : list (string * Q);
    bar_chart : option (list (string * Q));
    line_chart : option (list (Timestamp * Q));
    download_button : list Byte.byte }.

(** How a run ends: the script reached its last line, or an exception
    escaped (the missing [user_id] key, the pie chart, a date cell that
    does not parse).  Either way the session state and the committed database
    stay as the run left them. *)
Inductive outcome : Type :=
| rendered (s : session.state) (db : database) (messages : list shown)
           (main : option summary)
| raised (s : session.state) (db : database).

Definition session_after (o : outcome) : session.state :=
  match o with rendered s _ _ _ | raised s _ => s end.

Definition database_after (o : outcome) : database :=
  match o with rendered _ db _ _ | raised _ db => db end.

(** The [data] of the download button of a run; [None] when the run
    does not reach the button. *)
Definition download_csv (o : outcome) : option (list Byte.byte) :=
  match o with
  | rendered _ _ _ (Some main) => Some (download_button main)
  | _ => None
  end.

Section Page.

Variable sha256_hexdigest : string -> string.
Variable float_repr : Q -> string.

(** Whether the pie chart block (the group-by of line 147,
    [ax1.pie] and [st.pyplot]) raises on this frame; matplotlib
    refuses some wedge sizes, a negative total among them. *)
Variable pie_chart_raises : list transactions.row -> bool.

(** The sidebar: the Register and the Login branch. *)
Definition authentication (p : pressed) (s : session.state) (db : database)
  : session.state * database * list shown :=
  match p with
  | Register username password =>
      match register_user sha256_hexdigest username password db with
      | (true, db') => (s, db', [Account_created])
      | (false, db') => (s, db', [Username_already_exists])
      end
  | Login username password =>
      match login_user sha256_hexdigest username password db with
      | Some user =>
          (session.mk true (Some (users.id user)), db, [Welcome username])
      | None => (s, db, [Invalid_username_or_password])
      end
  | _ => (s, db, [])
  end.

(** The save button of the main block. *)
Definition save_button (p : pressed) (user_id : Z) (db : database)
  : database * list shown :=
  match p with
  | Save_Transactions edited_df now =>
      (save_transactions now user_id edited_df db,
       let kept := drop_empty_description edited_df in
       if negb (empty kept) then [transactions_saved (List.length kept)]
       else [])
  | _ => (db, [])
  end.

(** The summary block for a non-empty frame; [None] when the pie chart
    block or, after it, [pd.to_datetime] raises. *)
Definition show_summary (df : list transactions.row) : option summary :=
  if pie_chart_raises df then None else
  match daily_expense df with
  | Some trend =>
      Some {| metrics := (income df, expense df, balance df);
              dataframe := map entered_cells df;
              pie_chart := totals df;
              bar_chart := if negb (empty (of_type "Expense" df))
                           then Some (grouped df) else None;
              line_chart := if negb (empty trend) then Some trend else None;
              download_button := encode_utf8 (to_csv float_repr df) |}
  | None => None
  end.

(** [if st.session_state.get("logged_in"):] and what follows. *)
Definition main_app (p : pressed) (s : session.state) (db : database)
    (messages : list shown) : outcome :=
  if session.logged_in s then
    match session.user_id s with
    | None => raised s db
    | Some user_id =>
        let (db', saved) := save_button p user_id db in
        let df := get_transactions user_id db' in
        if negb (empty df) then
          match show_summary df with
          | Some main => rendered s db' (messages ++ saved) (Some main)
          | None => raised s db'
          end
        else rendered s db' (messages ++ saved ++ [No_transactions_yet]) None
    end
  else rendered s db messages None.

(** One run of the script. *)
Definition script (p : pressed) (s : session.state) (db : database)
  : outcome :=
  let '(s', db', messages) := authentication p s db in
  main_app p s' db' messages.

(** ** Several browser sessions on one database *)

Record world : Type := mk_world
  { store : database;
    sessions : list session.state }.

Definition initial_world : world := mk_world empty_database [].

Fixpoint replace_nth {A : Type} (n : nat) (x : A) (l : list A) : list A :=
  match l, n with
  | [], _ => []
  | _ :: l', O => x :: l'
  | y :: l', S n' => y :: replace_nth n' x l'
  end.

(** A browser opens the page for the first time. *)
Definition connect (w : world) : world :=
  mk_world (store w) (sessions w ++ [new_session]).

(** Session [i] reruns the script on a press. *)
Definition interact (i : nat) (p : pressed) (w : world) : world :=
  match nth_error (sessions w) i with
  | Some s =>
      let o := script p s (store w) in
      mk_world (database_after o) (replace_nth i (session_after o) (sessions w))
  | None => w
  end.

(** The clock reading that comes with a press of the save button is a
    reading the program can get. *)
Definition pressed_ok (p : pressed) : Prop :=
  match p with
  | Save_Transactions _ now => clock_reading now
  | _ => True
  end.

(** The worlds the program gets to from the empty database. *)
Inductive reachable : world -> Prop :=
| reachable_initial : reachable initial_world
| reachable_connect (w : world) :
    reachable w -> reachable (connect w)
| reachable_interact (w : world) (i : nat) (p : pressed) :
    reachable w -> pressed_ok p -> reachable (interact i p w).

End Page.

(** A session that is logged in holds the id of a registered user. *)
Definition session_ok (db : database) (s : session.state) : Prop :=
  session.logged_in s = true ->
  exists id, session.user_id s = Some id
             /\ In id (map users.id (users_table db)).

(** What every reachable world satisfies. *)
Definition world_invariant (w : world) : Prop :=
  store_invariant (store w) /\
  Forall (fun t => In (transactions.user_id t)
                      (map users.id (users_table (store w))))
         (transactions_table (store w)) /\
  Forall (fun t => exists now, clock_reading now
                               /\ transactions.date t = strftime_minute now)
         (transactions_table (store w)) /\
  Forall (session_ok (store w)) (sessions w).

(** A stand-in for the pie chart block: it raises when the amounts of
    some type add up to a negative number or when all of them add up
    to zero. *)
Definition example_pie_chart_raises (df : list transactions.row) : bool :=
  existsb (fun kv => negb (Qle_bool 0 (snd kv))) (totals df)
  || forallb (fun kv => Qeq_bool (snd kv) 0) (totals df).

(** Alice opens the page, registers, logs in and saves a lunch. *)
Definition alice_logged_in : world :=
  interact example_digest example_float_repr example_pie_chart_raises 0 (Login "alice" "secret")
    (interact example_digest example_float_repr example_pie_chart_raises 0 (Register "alice" "secret")
       (connect initial_world)).

Definition alice_world : world :=
  interact example_digest example_float_repr example_pie_chart_raises 0
    (Save_Transactions [editor.mk "Food" "lunch" "Expense" 150] afternoon)
    alice_logged_in.

(** ** The frame in double precision

    The aggregate views once more, on the frame as pandas holds it
    after [read_sql_query]: a TEXT cell is a string or missing ([None]
    for NULL), an amount is a binary64 float (NaN for NULL).  The two
    routines that add floats, [Series.sum()] and the sum that
    [groupby(...).sum()] takes of each group, belong to pandas and
    round in their own ways; they are parameters.  Subtraction and
    [==] are those of binary64. *)
Module frame.

Import PrimFloat.

(** The three columns the summary and the charts by type and by
    category read. *)
Record row : Type := mk
  { type : option string;
    category : option string;
    amount : float }.

(** [df["type"] == k], row by row: a missing cell is not equal. *)
Definition has_type (k : string) (r : row) : bool :=
  match type r with
  | Some t => String.eqb t k
  | None => false
  end.

Definition has_category (c : string) (r : row) : bool :=
  match category r with
  | Some c' => String.eqb c' c
  | None => false
  end.

(** A group-by before the sum: the rows with a missing key are dropped,
    the keys come in ascending order, each with the values of its rows
    in frame order. *)
Fixpoint add_to_groups (k : string) (v : float)
    (s : list (string * list float)) : list (string * list float) :=
  match s with
  | [] => [(k, [v])]
  | (k', vs) :: s' =>
      match String.compare k k' with
      | Lt => (k, [v]) :: s
      | Eq => (k', (vs ++ [v])%list) :: s'
      | Gt => (k', vs) :: add_to_groups k v s'
      end
  end.

Definition groups (rows : list (option string * float))
  : list (string * list float) :=
  fold_left (fun s kv => match fst kv with
                         | Some k => add_to_groups k (snd kv) s
                         | None => s
                         end)
            rows [].

(** The values of the rows whose key is [k], in frame order. *)
Fixpoint members (k : string) (rows : list (option string * float))
  : list float :=
  match rows with
  | [] => []
  | (Some k', v) :: rows' =>
      if String.eqb k' k then v :: members k rows' else members k rows'
  | (None, _) :: rows' => members k rows'
  end.

(** The group of key [k] in a grouped frame, if it has one. *)
Fixpoint group_at (k : string) (s : list (string * list float))
  : option (list float) :=
  match s with
  | [] => None
  | (k', vs) :: s' =>
      match String.compare k k' with
      | Eq => Some vs
      | _ => group_at k s'
      end
  end.

(** The keys of a grouped frame ascend strictly. *)
Definition keys_ascending {A : Type} (s : list (string * A)) : Prop :=
  StronglySorted (fun a b => String.compare a b = Lt) (map fst s).

(** A group that was [before] and then takes the values [more]. *)
Definition extended (before : option (list float)) (more : list float)
  : option (list float) :=
  match more with
  | [] => before
  | _ :: _ => Some match before with
                   | Some vs => (vs ++ more)%list
                   | None => more
                   end
  end.

Section Aggregates.

(** [Series.sum()] on a float64 column. *)
Variable Series_sum : list float -> float.

(** The sum that [groupby(...)["amount"].sum()] takes of one group. *)
Variable group_sum : list float -> float.

(** [df[df["type"]=="Income"]["amount"].sum()] *)
Definition income (df : list row) : float :=
  Series_sum (map amount (filter (has_type "Income") df)).

(** [df[df["type"]=="Expense"]["amount"].sum()] *)
Definition expense (df : list row) : float :=
  Series_sum (map amount (filter (has_type "Expense") df)).

(** [balance = income - expense] *)
Definition balance (df : list row) : float :=
  sub (income df) (expense df).

Definition groupby_sum (rows : list (option string * float))
  : list (string * float) :=
  map (fun g => (fst g, group_sum (snd g))) (groups rows).

(** [expense_df.groupby("category")["amount"].sum()] *)
Definition grouped (df : list row) : list (string * float) :=
  groupby_sum (map (fun r => (category r, amount r))
                   (filter (has_type "Expense") df)).

(** [df.groupby("type")["amount"].sum()] *)
Definition totals (df : list row) : list (string * float) :=
  groupby_sum (map (fun r => (type r, amount r)) df).

End Aggregates.

(** A stand-in for both sums: the cells that are not NaN, added from
    the first to the last.  The example frames below have at most
    three rows and their groups at most two cells. *)
Definition example_sum (column : list float) : float :=
  fold_left (fun acc x => if is_nan x then acc else add acc x) column 0%float.

(** Two incomes and two expenses of [2^1023] each. *)
Definition overflow_rows : list row :=
  [ mk (Some "Income") (Some "Salary") 0x1p1023%float;
    mk (Some "Income") (Some "Salary") 0x1p1023%float;
    mk (Some "Expense") (Some "Rent") 0x1p1023%float;
    mk (Some "Expense") (Some "Rent") 0x1p1023%float ].

(** Three expenses: [1] and [1] for travel around [2^53] for food. *)
Definition rounding_rows : list row :=
  [ mk (Some "Expense") (Some "Travel") 1%float;
    mk (Some "Expense") (Some "Food") 9007199254740992%float;
    mk (Some "Expense") (Some "Travel") 1%float ].

(** One expense whose category cell was left empty in the editor. *)
Definition uncategorised_rows : list row :=
  [ mk (Some "Expense") None 5%float ].

(** Three expenses, the doubles next to [0.1] for food and next to
    [0.2] and [0.3] for travel. *)
Definition decimal_rows : list row :=
  [ mk (Some "Expense") (Some "Food") 0x1.999999999999ap-4%float;
    mk (Some "Expense") (Some "Travel") 0x1.999999999999ap-3%float;
    mk (Some "Expense") (Some "Travel") 0x1.3333333333333p-2%float ].

End frame.

(** ** The edit buffer with missing cells

    The save handler once more, on the buffer as [st.data_editor] hands
    it over with [num_rows="dynamic"]: a cell that was not filled in,
    as every cell of a row the user has just added, is missing
    ([None]).  The INSERT binds a missing cell as NULL. *)
Module data_editor.

(** One row of [edited_df]. *)
Record row : Type := mk
  { Category : option string;
    Description : option string;
    Type_ : option string;
    Amount : option Q }.

(** One row of the transactions table; every column but [id],
    [user_id] and [date], which the program always supplies, can hold
    NULL. *)
Record stored : Type := mk_stored
  { id : Z;
    user_id : Z;
    date : string;
    category : option string;
    description : option string;
    type : option string;
    amount : option Q }.

(** The transactions table and its [sqlite_sequence] entry. *)
Record ledger : Type := mk_ledger
  { table : list stored;
    seq : Z }.

(** [edited_df["Description"] != empty string], row by row: a missing
    cell is not the empty string, so the comparison is true for it. *)
Definition Description_differs (r : row) : bool :=
  match Description r with
  | Some d => negb (String.eqb d EmptyString)
  | None => true
  end.

Definition drop_empty_description (edited_df : list row) : list row :=
  filter Description_differs edited_df.

(** One INSERT of [add_transactions], for a row whose [Date] cell is
    [Date]. *)
Definition insert_transaction (user_id : Z) (Date : string) (r : row)
    (l : ledger) : ledger :=
  let new_id := seq l + 1 in
  {| table := table l ++
              [mk_stored new_id user_id Date (Category r) (Description r)
                 (Type_ r) (Amount r)];
     seq := new_id |}.

(** [add_transactions] on a frame whose [Date] column holds [Date] in
    every row. *)
Definition add_transactions (user_id : Z) (Date : string) (df : list row)
    (l : ledger) : ledger :=
  fold_left (fun l r => insert_transaction user_id Date r l) df l.

(** The body of [if st.button("Save Transactions")], with the message
    it shows. *)
Definition save_button (now : datetime) (user_id : Z)
    (edited_df : list row) (l : ledger) : ledger * list shown :=
  let edited_df := drop_empty_description edited_df in
  if negb (empty edited_df) then
    (add_transactions user_id (strftime_minute now) edited_df l,
     [transactions_saved (List.length edited_df)])
  else (l, []).

(** The rows that [add_transactions] writes, given the counter. *)
Fixpoint written (user_id : Z) (Date : string) (seq : Z) (df : list row)
  : list stored :=
  match df with
  | [] => []
  | r :: df' =>
      mk_stored (seq + 1) user_id Date (Category r) (Description r)
        (Type_ r) (Amount r)
      :: written user_id Date (seq + 1) df'
  end.

(** The cells of a stored row that come from the buffer. *)
Definition entered (t : stored)
  : option string * option string * option string * option Q :=
  (category t, description t, type t, amount t).

Definition cells (r : row)
  : option string * option string * option string * option Q :=
  (Category r, Description r, Type_ r, Amount r).

(** A buffer row with every cell filled in, a stored row without NULL
    and a table without NULL, as the rows of the cell-complete model
    above. *)
Definition filled (r : editor.row) : row :=
  mk (Some (editor.Category r)) (Some (editor.Description r))
     (Some (editor.Type_ r)) (Some (editor.Amount r)).

Definition of_transaction (t : transactions.row) : stored :=
  mk_stored (transactions.id t) (transactions.user_id t)
    (transactions.date t) (Some (transactions.category t))
    (Some (transactions.description t)) (Some (transactions.type t))
    (Some (transactions.amount t)).

Definition of_database (db : database) : ledger :=
  mk_ledger (map of_transaction (transactions_table db))
            (transactions_seq db).

(** The template row, and a row the user added and left as it came. *)
Definition template_df : list row :=
  [ mk (Some "Food") (Some EmptyString) (Some "Expense") (Some 0%Q) ].

Definition added_row : row := mk None None None None.

End data_editor.

(** * Properties *)

(** ** Credential store *)

Section CredentialProperties.

Variable sha256_hexdigest : string -> string.

Lemma username_taken_true (username : string) (db : database) :
  username_taken username db = true <->
  In username (map users.username (users_table db)).
Proof.
  unfold username_taken. rewrite existsb_exists, in_map_iff.
  split; intros [u [H1 H2]].
  - exists u. apply String.eqb_eq in H2. auto.
  - exists u. split; [assumption | now apply String.eqb_eq].
Qed.

Lemma username_taken_false (username : string) (db : database) :
  username_taken username db = false <->
  ~ In username (map users.username (users_table db)).
Proof.
  rewrite <- username_taken_true.
  destruct (username_taken username db); split; intro H;
    try reflexivity; try discriminate; try (intro; discriminate).
  exfalso. apply H. reflexivity.
Qed.

(** No row before the new one answers the login query when the
    username is not in the table. *)
Lemma find_login_fresh (username digest : string) (us : list users.row)
      (new : users.row) :
  ~ In username (map users.username us) ->
  users.username new = username ->
  users.password_hash new = digest ->
  find (fun u => String.eqb (users.username u) username
                 && String.eqb (users.password_hash u) digest)
       (us ++ [new]) = Some new.
Proof.
  intros Hfresh Hname Hhash. induction us as [| u us IH]; simpl.
  - rewrite Hname, Hhash, !String.eqb_refl. reflexivity.
  - destruct (String.eqb (users.username u) username) eqn:E.
    + apply String.eqb_eq in E. exfalso. apply Hfresh. left. exact E.
    + simpl. apply IH. intro Hin. apply Hfresh. right. exact Hin.
Qed.

(** C3: for a username that is not registered yet, [register_user]
    returns [True], and [login_user] with the same username and password
    then returns the row that this registration created (the user's
    identity: its id, username and digest) rather than [None]. *)
Theorem register_then_login (db : database) (username password : string) :
  ~ In username (map users.username (users_table db)) ->
  let new := users.mk (users_seq db + 1) username
                      (hash_password sha256_hexdigest password) in
  fst (register_user sha256_hexdigest username password db) = true /\
  users_table (snd (register_user sha256_hexdigest username password db))
    = (users_table db ++ [new])%list /\
  login_user sha256_hexdigest username password
    (snd (register_user sha256_hexdigest username password db)) = Some new.
Proof.
  intros Hfresh new. unfold register_user, insert_user.
  apply username_taken_false in Hfresh as Hnot. rewrite Hnot. simpl.
  repeat split. unfold login_user. simpl.
  apply find_login_fresh; auto.
Qed.

Lemma register_success_takes_username (db : database)
      (username password : string) :
  fst (register_user sha256_hexdigest username password db) = true ->
  username_taken username
    (snd (register_user sha256_hexdigest username password db)) = true.
Proof.
  unfold register_user, insert_user.
  destruct (username_taken username db) eqn:E; simpl; [discriminate |].
  intros _. apply username_taken_true. simpl.
  rewrite map_app, in_app_iff. right. simpl. auto.
Qed.

(** C4: once [register_user username p1] has returned [True], a second
    [register_user username p2] on the resulting database returns
    [False] (the duplicate-username failure), whatever [p2] is. *)
Theorem register_twice_fails (db : database) (username p1 p2 : string) :
  fst (register_user sha256_hexdigest username p1 db) = true ->
  fst (register_user sha256_hexdigest username p2
         (snd (register_user sha256_hexdigest username p1 db))) = false.
Proof.
  intro Hok. apply register_success_takes_username in Hok.
  revert Hok. generalize (snd (register_user sha256_hexdigest username p1 db)).
  intros db' Htaken. unfold register_user, insert_user.
  rewrite Htaken. reflexivity.
Qed.

(** C10: for a username that is already in the users table,
    [register_user] returns [False] and the database it leaves is the
    one it was given: no user row added or changed (and nothing else
    touched either). *)
Theorem register_failure_atomic (db : database) (username password : string) :
  In username (map users.username (users_table db)) ->
  register_user sha256_hexdigest username password db = (false, db).
Proof.
  intro Hin. apply username_taken_true in Hin.
  unfold register_user, insert_user. rewrite Hin. reflexivity.
Qed.

End CredentialProperties.

Lemma register_then_login_witness :
  fst (register_user example_digest "bob" "hunter2" alice_registered) = true /\
  users_table
    (snd (register_user example_digest "bob" "hunter2" alice_registered))
    = (users_table alice_registered
       ++ [users.mk 2 "bob" "digest:hunter2"])%list /\
  login_user example_digest "bob" "hunter2"
    (snd (register_user example_digest "bob" "hunter2" alice_registered))
    = Some (users.mk 2 "bob" "digest:hunter2").
Proof.
  apply (register_then_login example_digest alice_registered "bob" "hunter2").
  simpl. intros [H | []]. discriminate H.
Defined.

Lemma register_twice_fails_witness :
  fst (register_user example_digest "alice" "other"
         (snd (register_user example_digest "alice" "secret" empty_database)))
  = false.
Proof.
  apply (register_twice_fails example_digest empty_database
           "alice" "secret" "other").
  reflexivity.
Defined.

Lemma register_failure_atomic_witness :
  register_user example_digest "alice" "other" alice_registered
  = (false, alice_registered).
Proof.
  apply (register_failure_atomic example_digest alice_registered
           "alice" "other").
  simpl. left. reflexivity.
Defined.

(** ** Ledger store *)

Section LedgerProperties.

Local Open Scope list_scope.

Lemma add_transactions_table (user_id : Z) (df : list batch.row)
      (db : database) :
  transactions_table (add_transactions user_id df db)
  = transactions_table db ++ stored_rows user_id (transactions_seq db) df.
Proof.
  unfold add_transactions. revert db.
  induction df as [| r df IH]; intro db; simpl.
  - now rewrite app_nil_r.
  - rewrite IH. simpl. now rewrite <- app_assoc.
Qed.

Lemma add_transactions_users (user_id : Z) (df : list batch.row)
      (db : database) :
  users_table (add_transactions user_id df db) = users_table db.
Proof.
  unfold add_transactions. revert db.
  induction df as [| r df IH]; intro db; simpl; [reflexivity |].
  now rewrite IH.
Qed.

Lemma stored_rows_amount (user_id seq : Z) (df : list batch.row) :
  map transactions.amount (stored_rows user_id seq df) = map batch.Amount df.
Proof.
  revert seq. induction df as [| r df IH]; intro seq; simpl;
    [reflexivity | now rewrite IH].
Qed.

Lemma stored_rows_In (user_id seq : Z) (df : list batch.row) (r : batch.row) :
  In r df ->
  exists id,
    In (transactions.mk id user_id (batch.Date r) (batch.Category r)
          (batch.Description r) (batch.Type_ r) (batch.Amount r))
       (stored_rows user_id seq df).
Proof.
  revert seq. induction df as [| r' df IH]; intros seq Hin; simpl in *.
  - contradiction.
  - destruct Hin as [-> | Hin].
    + exists (seq + 1)%Z. now left.
    + destruct (IH (seq + 1)%Z Hin) as [id Hid]. exists id. now right.
Qed.

Lemma filter_other_user (u v seq : Z) (df : list batch.row) :
  u <> v ->
  filter (fun t => Z.eqb (transactions.user_id t) u) (stored_rows v seq df)
  = [].
Proof.
  intro Hne. revert seq. induction df as [| r df IH]; intro seq; simpl.
  - reflexivity.
  - destruct (Z.eqb_spec v u) as [E | _]; [congruence | apply IH].
Qed.

Lemma get_transactions_add_other (db : database) (u v : Z)
      (df : list batch.row) :
  u <> v ->
  get_transactions u (add_transactions v df db) = get_transactions u db.
Proof.
  intro Hne. unfold get_transactions.
  rewrite add_transactions_table, filter_app, filter_other_user by assumption.
  apply app_nil_r.
Qed.

(** C7: [get_transactions u] returns only rows whose [user_id] is [u],
    and for a different user [v], appending a batch for [v] (directly
    with [add_transactions], or through the save handler) leaves the
    result of [get_transactions u] unchanged. *)
Theorem no_cross_user_visibility (db : database) (u v : Z)
        (df : list batch.row) (now : datetime) (edited_df : list editor.row) :
  u <> v ->
  (forall t, In t (get_transactions u db) -> transactions.user_id t = u) /\
  get_transactions u (add_transactions v df db) = get_transactions u db /\
  get_transactions u (save_transactions now v edited_df db)
  = get_transactions u db.
Proof.
  intro Hne. split; [| split].
  - intros t Hin. unfold get_transactions in Hin.
    apply filter_In in Hin. destruct Hin as [_ Heq].
    now apply Z.eqb_eq.
  - now apply get_transactions_add_other.
  - unfold save_transactions.
    destruct (negb (empty (drop_empty_description edited_df)));
      [now apply get_transactions_add_other | reflexivity].
Qed.

Lemma save_transactions_table (now : datetime) (user_id : Z)
      (edited_df : list editor.row) (db : database) :
  transactions_table (save_transactions now user_id edited_df db)
  = transactions_table db
    ++ stored_rows user_id (transactions_seq db)
         (map (with_Date (strftime_minute now))
              (drop_empty_description edited_df)).
Proof.
  unfold save_transactions.
  destruct (drop_empty_description edited_df) as [| r rs] eqn:E.
  - simpl. now rewrite app_nil_r.
  - cbn [negb empty]. apply add_transactions_table.
Qed.

(** C8, as the code has it: neither the save handler nor the store
    looks at the amounts.  The amounts in the table after a save are
    the amounts that were there, followed by the amounts of the edited
    rows whose description is not empty, unchanged and in order; so all
    stored amounts are non-negative exactly when the old ones and the
    entered ones are. *)
Theorem stored_amounts_are_entered_amounts (now : datetime) (user_id : Z)
        (edited_df : list editor.row) (db : database) :
  map transactions.amount
      (transactions_table (save_transactions now user_id edited_df db))
  = map transactions.amount (transactions_table db)
    ++ map editor.Amount (drop_empty_description edited_df) /\
  (Forall (fun t => (0 <= transactions.amount t)%Q)
          (transactions_table (save_transactions now user_id edited_df db))
   <->
   Forall (fun t => (0 <= transactions.amount t)%Q) (transactions_table db) /\
   Forall (fun r => (0 <= editor.Amount r)%Q)
          (drop_empty_description edited_df)).
Proof.
  assert (Hmap :
    map transactions.amount
        (transactions_table (save_transactions now user_id edited_df db))
    = map transactions.amount (transactions_table db)
      ++ map editor.Amount (drop_empty_description edited_df)).
  { rewrite save_transactions_table, map_app, stored_rows_amount, map_map.
    reflexivity. }
  split; [exact Hmap |].
  assert (Hall : forall A (f : A -> Q) (l : list A),
             Forall (fun a => (0 <= f a)%Q) l
             <-> Forall (fun q => (0 <= q)%Q) (map f l)).
  { intros A f l. rewrite Forall_map. reflexivity. }
  rewrite (Hall _ transactions.amount), Hmap, Forall_app.
  rewrite <- !Hall. reflexivity.
Qed.

(** The claim of C8 fails on the code: a row entered with amount [-5]
    is stored with amount [-5]. *)
Lemma negative_amount_is_stored :
  ~ Forall (fun t => (0 <= transactions.amount t)%Q)
      (transactions_table
         (save_transactions example_now 1
            [editor.mk "Food" "refund" "Expense" (-5 # 1)%Q]
            empty_database)).
Proof.
  intro H. inversion H as [| t l Hneg _]; subst.
  simpl in Hneg. unfold Qle in Hneg. simpl in Hneg. lia.
Qed.

Lemma drop_empty_description_In (edited_df : list editor.row)
      (r : editor.row) :
  In r (drop_empty_description edited_df)
  <-> In r edited_df /\ editor.Description r <> EmptyString.
Proof.
  unfold drop_empty_description. rewrite filter_In.
  destruct (String.eqb_spec (editor.Description r) EmptyString) as [E | E];
    simpl; intuition congruence.
Qed.

(** C9: the save filter removes a row exactly when its description is
    the empty string; a row whose description is whitespace only (one
    space, say) passes the filter and is stored for the user, with the
    batch's timestamp and its other cells unchanged. *)
Theorem whitespace_description_is_stored (now : datetime) (user_id : Z)
        (edited_df : list editor.row) (db : database) (r : editor.row) :
  In r edited_df ->
  whitespace_only (editor.Description r) = true ->
  (forall r', In r' (drop_empty_description edited_df)
              <-> In r' edited_df /\ editor.Description r' <> EmptyString) /\
  In r (drop_empty_description edited_df) /\
  exists id,
    In (transactions.mk id user_id (strftime_minute now) (editor.Category r)
          (editor.Description r) (editor.Type_ r) (editor.Amount r))
       (get_transactions user_id
          (save_transactions now user_id edited_df db)).
Proof.
  intros Hin Hws.
  assert (Hkept : In r (drop_empty_description edited_df)).
  { apply drop_empty_description_In. split; [assumption |].
    intro E. rewrite E in Hws. discriminate. }
  split; [intro r'; apply drop_empty_description_In |].
  split; [assumption |].
  destruct (stored_rows_In user_id (transactions_seq db)
              (map (with_Date (strftime_minute now))
                   (drop_empty_description edited_df))
              (with_Date (strftime_minute now) r)) as [id Hid].
  { now apply in_map. }
  exists id. unfold get_transactions. apply filter_In. split.
  - rewrite save_transactions_table. apply in_or_app. right. exact Hid.
  - simpl. apply Z.eqb_refl.
Qed.

End LedgerProperties.

Lemma no_cross_user_visibility_witness :
  (forall t,
      In t (get_transactions 1 same_day_ledger) -> transactions.user_id t = 1) /\
  get_transactions 1
    (add_transactions 2
       [batch.mk "Rent" "flat" "Expense" 900 "2024-03-16 08:00"]
       same_day_ledger)
  = get_transactions 1 same_day_ledger /\
  get_transactions 1
    (save_transactions example_now 2
       [editor.mk "Salary" "pay" "Income" 5000] same_day_ledger)
  = get_transactions 1 same_day_ledger.
Proof.
  apply (no_cross_user_visibility same_day_ledger (u := 1) (v := 2)).
  lia.
Defined.

Lemma whitespace_description_is_stored_witness :
  exists id,
    In (transactions.mk id 1 "2024-03-15 10:30" "Food" " " "Expense" 150)
       (get_transactions 1
          (save_transactions example_now 1
             [editor.mk "Food" " " "Expense" 150] empty_database)).
Proof.
  apply (whitespace_description_is_stored example_now 1
           [editor.mk "Food" " " "Expense" 150] empty_database
           (editor.mk "Food" " " "Expense" 150)).
  - simpl. left. reflexivity.
  - reflexivity.
Defined.

(** ** Sums *)

Arguments series_sum : simpl never.

Section SumProperties.

Local Open Scope Q_scope.

Lemma fold_left_Qplus (s : list Q) (a : Q) :
  fold_left Qplus s a == a + fold_right Qplus 0 s.
Proof.
  revert a. induction s as [| x s IH]; intro a; simpl.
  - ring.
  - rewrite IH. ring.
Qed.

Lemma series_sum_nil : series_sum [] == 0.
Proof. reflexivity. Qed.

Lemma series_sum_cons (x : Q) (s : list Q) :
  series_sum (x :: s) == x + series_sum s.
Proof.
  unfold series_sum. simpl. rewrite !fold_left_Qplus. ring.
Qed.

End SumProperties.

(** ** Grouping *)

Section GroupByProperties.

Local Open Scope Q_scope.

Context {K : Type} (compare : K -> K -> comparison).
Context {lawful : LawfulCompare compare}.

Lemma compare_refl (k : K) : compare k k = Eq.
Proof. now apply compare_eq. Qed.

Lemma compare_gt_lt (a b : K) : compare a b = Gt -> compare b a = Lt.
Proof. intro H. rewrite compare_antisym, H. reflexivity. Qed.

Lemma add_to_group_keys (k : K) (v : Q) (s : list (K * Q)) (k' : K) :
  In k' (map fst (add_to_group compare k v s))
  <-> k' = k \/ In k' (map fst s).
Proof.
  induction s as [| [k1 v1] s IH]; simpl.
  - intuition.
  - destruct (compare k k1) eqn:E; simpl.
    + apply compare_eq in E. subst k1. intuition.
    + intuition.
    + rewrite IH. intuition.
Qed.

Lemma add_to_group_sum (k : K) (v : Q) (s : list (K * Q)) :
  series_sum (map snd (add_to_group compare k v s))
  == series_sum (map snd s) + v.
Proof.
  induction s as [| [k1 v1] s IH]; simpl.
  - rewrite series_sum_cons. ring.
  - destruct (compare k k1); simpl; rewrite !series_sum_cons.
    + ring.
    + ring.
    + rewrite IH. ring.
Qed.

Lemma add_to_group_ascending (k : K) (v : Q) (s : list (K * Q)) :
  ascending compare s -> ascending compare (add_to_group compare k v s).
Proof.
  unfold ascending. induction s as [| [k1 v1] s IH]; simpl; intro Hs.
  - constructor; constructor.
  - inversion Hs as [| ? ? Hs' Hall]; subst.
    destruct (compare k k1) eqn:E; simpl.
    + constructor; assumption.
    + constructor; [exact Hs |].
      constructor; [exact E |].
      eapply Forall_impl; [| exact Hall].
      intros a Ha. simpl in Ha. eapply compare_trans; eassumption.
    + constructor; [now apply IH |].
      apply Forall_forall. intros a Ha.
      apply add_to_group_keys in Ha. destruct Ha as [-> | Ha].
      * now apply compare_gt_lt.
      * rewrite Forall_forall in Hall. now apply Hall.
Qed.

Lemma value_at_below (k : K) (s : list (K * Q)) :
  Forall (fun a => compare k a = Lt) (map fst s) -> value_at compare k s = None.
Proof.
  induction s as [| [k1 v1] s IH]; simpl; intro H; [reflexivity |].
  inversion H as [| ? ? H1 H2]; subst. simpl in H1. rewrite H1. now apply IH.
Qed.

Lemma value_at_add_to_group (k : K) (v : Q) (s : list (K * Q)) (k' : K) :
  ascending compare s ->
  value_at compare k' (add_to_group compare k v s)
  = match compare k' k with
    | Eq => Some match value_at compare k s with
                 | Some w => w + v
                 | None => v
                 end
    | _ => value_at compare k' s
    end.
Proof.
  unfold ascending. induction s as [| [k1 v1] s IH]; simpl; intro Hs.
  - destruct (compare k' k); reflexivity.
  - inversion Hs as [| ? ? Hs' Hall]; subst.
    destruct (compare k k1) eqn:E; simpl.
    + apply compare_eq in E. subst k1.
      destruct (compare k' k); reflexivity.
    + destruct (compare k' k) eqn:E'; try reflexivity.
      apply compare_eq in E'. subst k'.
      rewrite value_at_below; [reflexivity |].
      eapply Forall_impl; [| exact Hall].
      intros a Ha. simpl in Ha. eapply compare_trans; eassumption.
    + rewrite (IH Hs'). destruct (compare k' k1) eqn:E1.
      * apply compare_eq in E1. subst k'.
        rewrite (compare_gt_lt E). reflexivity.
      * reflexivity.
      * reflexivity.
Qed.

Lemma value_at_In (k : K) (v : Q) (s : list (K * Q)) :
  ascending compare s -> (In (k, v) s <-> value_at compare k s = Some v).
Proof.
  unfold ascending. induction s as [| [k1 v1] s IH]; simpl; intro Hs.
  - split; [contradiction | discriminate].
  - inversion Hs as [| ? ? Hs' Hall]; subst.
    destruct (compare k k1) eqn:E.
    + apply compare_eq in E. subst k1. split.
      * intros [H | H]; [now inversion H |].
        exfalso. rewrite Forall_forall in Hall.
        assert (Hlt : compare k k = Lt).
        { apply Hall. apply in_map_iff. exists (k, v). auto. }
        rewrite compare_refl in Hlt. discriminate.
      * intro H. inversion H. now left.
    + rewrite <- (IH Hs'). split; [| now right].
      intros [H | H]; [| exact H].
      inversion H; subst. rewrite compare_refl in E. discriminate.
    + rewrite <- (IH Hs'). split; [| now right].
      intros [H | H]; [| exact H].
      inversion H; subst. rewrite compare_refl in E. discriminate.
Qed.

Lemma fold_add_to_group (rows s : list (K * Q)) :
  ascending compare s ->
  let s' := fold_left (fun s kv => add_to_group compare (fst kv) (snd kv) s)
                      rows s in
  ascending compare s' /\
  (forall k, value_at compare k s'
             = accumulate compare k (value_at compare k s) rows) /\
  (forall k, In k (map fst s') <-> In k (map fst s) \/ In k (map fst rows)) /\
  series_sum (map snd s') == series_sum (map snd s) + series_sum (map snd rows).
Proof.
  revert s. induction rows as [| [k v] rows IH]; intros s Hs; simpl.
  - repeat split; auto; try tauto. rewrite series_sum_nil. ring.
  - pose proof (add_to_group_ascending k v Hs) as Hs1.
    destruct (IH _ Hs1) as (Ha & Hv & Hk & Hsum). simpl in *.
    split; [exact Ha |]. split; [| split].
    + intro k'. rewrite Hv, (value_at_add_to_group k v k' Hs).
      destruct (compare k' k) eqn:E; try reflexivity.
      apply compare_eq in E. subst k'. reflexivity.
    + intro k'. rewrite Hk, add_to_group_keys. intuition.
    + rewrite Hsum, add_to_group_sum, series_sum_cons. ring.
Qed.

Lemma accumulate_total (k : K) (rows : list (K * Q)) (acc : option Q) :
  match accumulate compare k acc rows with
  | Some w =>
      w == match acc with Some a => a | None => 0 end
           + group_total compare k rows
  | None => acc = None /\ ~ In k (map fst rows)
  end.
Proof.
  revert acc. induction rows as [| [k1 v1] rows IH]; intro acc; simpl.
  - destruct acc; [ring | auto].
  - destruct (compare k k1) eqn:E.
    + specialize (IH (Some match acc with Some w => w + v1 | None => v1 end)).
      destruct (accumulate compare k _ rows).
      * rewrite IH. destruct acc; ring.
      * destruct IH as [IH _]. discriminate.
    + specialize (IH acc). destruct (accumulate compare k acc rows);
        [exact IH |].
      destruct IH as [-> IH]. split; [reflexivity |].
      intros [H | H]; [| now apply IH].
      subst. rewrite compare_refl in E. discriminate.
    + specialize (IH acc). destruct (accumulate compare k acc rows);
        [exact IH |].
      destruct IH as [-> IH]. split; [reflexivity |].
      intros [H | H]; [| now apply IH].
      subst. rewrite compare_refl in E. discriminate.
Qed.

(** What [groupby(key)["amount"].sum()] returns: the index ascends, it
    holds exactly the keys of the rows, each value is the sum of the
    rows of its key, and the values add up to the sum of all rows. *)
Lemma groupby_sum_spec (rows : list (K * Q)) :
  ascending compare (groupby_sum compare rows) /\
  (forall k, In k (map fst (groupby_sum compare rows)) <-> In k (map fst rows)) /\
  (forall k v, In (k, v) (groupby_sum compare rows) ->
               v == group_total compare k rows) /\
  series_sum (map snd (groupby_sum compare rows))
  == series_sum (map snd rows).
Proof.
  unfold groupby_sum.
  assert (Hnil : ascending compare []) by constructor.
  destruct (fold_add_to_group rows Hnil) as (Ha & Hv & Hk & Hsum).
  simpl in *. split; [exact Ha |]. split; [| split].
  - intro k. rewrite Hk. tauto.
  - intros k v Hin. apply (value_at_In k v Ha) in Hin.
    rewrite Hv in Hin. pose proof (accumulate_total k rows None) as Hacc.
    rewrite Hin in Hacc. rewrite Hacc. ring.
  - rewrite Hsum, series_sum_nil. ring.
Qed.

End GroupByProperties.

(** ** The two key orders *)

#[export] Instance String_compare_lawful : LawfulCompare String.compare.
Proof.
  split.
  - exact String_as_OT.cmp_eq.
  - intros a b. apply String_as_OT.cmp_antisym.
  - intros a b c Hab Hbc.
    apply String_as_OT.cmp_lt in Hab. apply String_as_OT.cmp_lt in Hbc.
    apply String_as_OT.cmp_lt. eapply String_as_OT.lt_trans; eassumption.
Qed.

Ltac compare_fields x y :=
  destruct (Nat.compare_spec x y); cbv iota.

Ltac compare_fields3 x y z :=
  destruct (Nat.compare_spec x y); destruct (Nat.compare_spec y z);
  destruct (Nat.compare_spec x z); cbv iota;
  try (intros; reflexivity); try (intros; discriminate);
  try (exfalso; lia).

#[export] Instance Timestamp_compare_lawful : LawfulCompare Timestamp_compare.
Proof.
  split.
  - intros [y1 m1 d1 h1 n1] [y2 m2 d2 h2 n2].
    unfold Timestamp_compare, then_compare; simpl.
    compare_fields y1 y2; [| split; [discriminate | intro E; inversion E; lia] ..].
    compare_fields m1 m2; [| split; [discriminate | intro E; inversion E; lia] ..].
    compare_fields d1 d2; [| split; [discriminate | intro E; inversion E; lia] ..].
    compare_fields h1 h2; [| split; [discriminate | intro E; inversion E; lia] ..].
    compare_fields n1 n2; [| split; [discriminate | intro E; inversion E; lia] ..].
    subst. split; reflexivity.
  - intros [y1 m1 d1 h1 n1] [y2 m2 d2 h2 n2].
    unfold Timestamp_compare, then_compare; simpl.
    rewrite (Nat.compare_antisym y1 y2), (Nat.compare_antisym m1 m2),
      (Nat.compare_antisym d1 d2), (Nat.compare_antisym h1 h2),
      (Nat.compare_antisym n1 n2).
    destruct (Nat.compare y1 y2); simpl; try reflexivity.
    destruct (Nat.compare m1 m2); simpl; try reflexivity.
    destruct (Nat.compare d1 d2); simpl; try reflexivity.
    destruct (Nat.compare h1 h2); simpl; reflexivity.
  - intros [y1 m1 d1 h1 n1] [y2 m2 d2 h2 n2] [y3 m3 d3 h3 n3].
    unfold Timestamp_compare, then_compare; simpl.
    compare_fields3 y1 y2 y3.
    compare_fields3 m1 m2 m3.
    compare_fields3 d1 d2 d3.
    compare_fields3 h1 h2 h3.
    compare_fields3 n1 n2 n3.
Qed.

(** ** Aggregate views *)

Section AggregationProperties.

Local Open Scope Q_scope.

Lemma parse_dates_In (df : list transactions.row)
      (parsed : list (Timestamp * transactions.row)) :
  parse_dates df = Some parsed ->
  forall d t, In (d, t) parsed ->
              In t df /\ to_datetime (transactions.date t) = Some d.
Proof.
  revert parsed. induction df as [| t0 df IH]; simpl; intros parsed P d t Hin.
  - inversion P; subst. contradiction.
  - destruct (to_datetime (transactions.date t0)) eqn:E; [| discriminate].
    destruct (parse_dates df) as [rest |]; [| discriminate].
    inversion P; subst. destruct Hin as [Hin | Hin].
    + inversion Hin; subst. split; [now left | exact E].
    + destruct (IH rest eq_refl d t Hin) as [H1 H2]. split; [now right | exact H2].
Qed.

(** What the expense-trend Series is on every input: when all date
    cells parse, its index ascends in time, holds the timestamps of the
    Expense rows, and the values add up to the expense figure. *)
Lemma daily_expense_by_timestamp (df : list transactions.row)
      (s : list (Timestamp * Q)) :
  daily_expense df = Some s ->
  ascending Timestamp_compare s /\
  (forall d, In d (map fst s) ->
     exists t, In t df /\ transactions.type t = "Expense"%string
               /\ to_datetime (transactions.date t) = Some d).
Proof.
  unfold daily_expense. destruct (parse_dates df) as [parsed |] eqn:P;
    [| discriminate].
  intro H. inversion H; subst; clear H.
  destruct (groupby_sum_spec (compare := Timestamp_compare)
              (map (fun dt => (fst dt, transactions.amount (snd dt)))
                   (filter (fun dt =>
                      String.eqb (transactions.type (snd dt)) "Expense")
                      parsed)))
    as (Hasc & Hkeys & _ & _).
  split; [exact Hasc |].
  intros d Hd. apply Hkeys in Hd. rewrite map_map in Hd. simpl in Hd.
  apply in_map_iff in Hd. destruct Hd as [[d' t] [Hd Hin]]. simpl in Hd.
  subst d'. apply filter_In in Hin. destruct Hin as [Hin Ht]. simpl in Ht.
  apply String.eqb_eq in Ht.
  destruct (parse_dates_In df P d t Hin) as [Hdf Hparse].
  exists t. auto.
Qed.

(** C5, the code on a ledger with two expenses of one day, saved
    through the save handler at 09:00 and at 13:30: the trend Series
    has two entries, one per timestamp, both on the calendar date
    2024-03-15; it holds neither a single entry for that date nor the
    date's sum [200]. *)
Theorem daily_expense_keeps_minutes :
  get_transactions 1 same_day_ledger = same_day_expenses /\
  daily_expense (get_transactions 1 same_day_ledger)
  = Some [ (mk_Timestamp 2024 3 15 9 0, 50);
           (mk_Timestamp 2024 3 15 13 30, 150) ] /\
  map calendar_date
      [ mk_Timestamp 2024 3 15 9 0; mk_Timestamp 2024 3 15 13 30 ]
  = [ (2024, 3, 15)%nat; (2024, 3, 15)%nat ] /\
  expense (get_transactions 1 same_day_ledger) == 200.
Proof.
  split; [vm_compute; reflexivity |].
  split; [vm_compute; reflexivity |].
  split; [reflexivity | vm_compute; reflexivity].
Qed.

End AggregationProperties.

(** ** CSV export *)

Section ExportProperties.

Variable float_repr : Q -> string.

Lemma append_assoc (a b c : string) : (a ++ b) ++ c = a ++ (b ++ c).
Proof.
  induction a as [| x a IH]; simpl; [reflexivity | now rewrite IH].
Qed.

Lemma append_empty_r (a : string) : a ++ EmptyString = a.
Proof.
  induction a as [| x a IH]; simpl; [reflexivity | now rewrite IH].
Qed.

(** Inside a quoted cell the scan skips the cell's text, whatever it
    holds, and leaves the cell at the closing quote. *)
Lemma count_records_quoted (s rest : string) :
  count_records true (double_quotes s ++ String quote_char rest)
  = count_records false rest.
Proof.
  induction s as [| c s IH]; simpl.
  - reflexivity.
  - destruct (Ascii.eqb c quote_char) eqn:E; simpl.
    + exact IH.
    + rewrite E, andb_false_r. exact IH.
Qed.

Lemma count_records_plain (s rest : string) :
  needs_quoting s = false ->
  count_records false (s ++ rest) = count_records false rest.
Proof.
  induction s as [| c s IH]; simpl; intro H; [reflexivity |].
  apply orb_false_elim in H. destruct H as [Hc Hs].
  unfold special in Hc.
  apply orb_false_elim in Hc. destruct Hc as [Hc _].
  apply orb_false_elim in Hc. destruct Hc as [Hc Hlf].
  apply orb_false_elim in Hc. destruct Hc as [_ Hq].
  rewrite Hq, Hlf. simpl. now apply IH.
Qed.

Lemma count_records_field (s rest : string) :
  count_records false (csv_field s ++ rest) = count_records false rest.
Proof.
  unfold csv_field. destruct (needs_quoting s) eqn:E.
  - simpl. rewrite append_assoc. simpl. apply count_records_quoted.
  - now apply count_records_plain.
Qed.

Lemma count_records_cells (cells : list string) (rest : string) :
  count_records false
    (String.concat (String comma EmptyString) (map csv_field cells) ++ rest)
  = count_records false rest.
Proof.
  induction cells as [| c cells IH]; simpl; [reflexivity |].
  destruct cells as [| c' cells].
  - simpl. apply count_records_field.
  - remember (c' :: cells) as cs. simpl. subst cs.
    change (map csv_field (c' :: cells))
      with (csv_field c' :: map csv_field cells).
    cbv iota. rewrite !append_assoc, count_records_field. simpl.
    exact IH.
Qed.

(** Every record, whatever its cells hold, counts as one. *)
Lemma count_records_record (cells : list string) (rest : string) :
  count_records false (csv_record cells ++ rest)
  = S (count_records false rest).
Proof.
  unfold csv_record. rewrite append_assoc, count_records_cells.
  reflexivity.
Qed.

Lemma count_records_rows (df : list transactions.row) :
  count_records false
    (String.concat EmptyString
       (map (fun t => csv_record (cells float_repr t)) df))
  = List.length df.
Proof.
  induction df as [| t df IH]; [reflexivity |].
  destruct df as [| t' df].
  - change (count_records false (csv_record (cells float_repr t)) = 1%nat).
    rewrite <- (append_empty_r (csv_record (cells float_repr t))).
    rewrite count_records_record. reflexivity.
  - change (String.concat EmptyString
              (map (fun t => csv_record (cells float_repr t)) (t :: t' :: df)))
      with (csv_record (cells float_repr t) ++
            String.concat EmptyString
              (map (fun t => csv_record (cells float_repr t)) (t' :: df))).
    rewrite count_records_record, IH. reflexivity.
Qed.

End ExportProperties.

(** ** The clock and the date cells *)

Section ClockProperties.

Local Open Scope nat_scope.

Lemma digit_value_digit (n : nat) : digit_value (digit n) = Some (n mod 10).
Proof.
  unfold digit_value, digit.
  assert (H : n mod 10 < 10) by (apply Nat.mod_upper_bound; lia).
  rewrite nat_ascii_embedding by lia.
  replace (48 <=? 48 + n mod 10) with true
    by (symmetry; apply Nat.leb_le; lia).
  replace (48 + n mod 10 <=? 57) with true
    by (symmetry; apply Nat.leb_le; lia).
  simpl. f_equal. lia.
Qed.

Lemma number_of_two_digits (n : nat) :
  n / 10 < 10 ->
  number_of_digits 0 [digit (n / 10); digit n] = Some n.
Proof.
  intro H. cbn [number_of_digits]. rewrite !digit_value_digit. f_equal.
  pose proof (Nat.div_mod_eq n 10).
  rewrite (Nat.mod_small (n / 10) 10) by exact H. lia.
Qed.

Lemma number_of_four_digits (y : nat) :
  y / 1000 < 10 ->
  number_of_digits 0
    [digit (y / 1000); digit (y / 100); digit (y / 10); digit y] = Some y.
Proof.
  intro H. cbn [number_of_digits]. rewrite !digit_value_digit. f_equal.
  revert H.
  replace (y / 1000) with (y / 10 / 10 / 10)
    by (rewrite !Nat.Div0.div_div; reflexivity).
  replace (y / 100) with (y / 10 / 10)
    by (rewrite !Nat.Div0.div_div; reflexivity).
  intro H.
  pose proof (Nat.div_mod_eq y 10).
  pose proof (Nat.div_mod_eq (y / 10) 10).
  pose proof (Nat.div_mod_eq (y / 10 / 10) 10).
  rewrite (Nat.mod_small (y / 10 / 10 / 10) 10) by exact H.
  lia.
Qed.

Lemma days_in_month_bound (y m : nat) : days_in_month y m <= 31.
Proof.
  unfold days_in_month.
  destruct m as [|[|[|[|[|[|[|[|[|[|[|[|[| m]]]]]]]]]]]]]; try lia.
  destruct (leap_year y); lia.
Qed.

Lemma days_in_month_month (y m : nat) : 1 <= days_in_month y m -> m <= 12.
Proof.
  unfold days_in_month.
  destruct m as [|[|[|[|[|[|[|[|[|[|[|[|[| m]]]]]]]]]]]]]; lia.
Qed.

(** The date cell that a save writes parses back to the minute of the
    clock reading: the year, month, day, hour and minute of
    [datetime.now()], the seconds gone. *)
Lemma to_datetime_strftime_minute (t : datetime) :
  year t / 1000 < 10 ->
  valid_Timestamp
    (mk_Timestamp (year t) (month t) (day t) (hour t) (minute t)) = true ->
  to_datetime (strftime_minute t)
  = Some (mk_Timestamp (year t) (month t) (day t) (hour t) (minute t)).
Proof.
  destruct t as [y m d h n s]. cbn [year month day hour minute].
  intros Hy Hvalid.
  unfold to_datetime, strftime_minute, four_digits, two_digits.
  cbn [append list_ascii_of_string year month day hour minute].
  change (Ascii.eqb "-" "-" && Ascii.eqb "-" "-" && Ascii.eqb " " " "
          && Ascii.eqb ":" ":")%bool with true. cbv iota.
  pose proof Hvalid as Hv. unfold valid_Timestamp in Hv.
  cbn [ts_year ts_month ts_day ts_hour ts_minute] in Hv.
  apply andb_prop in Hv. destruct Hv as [Hv Hn].
  apply andb_prop in Hv. destruct Hv as [Hv Hh].
  apply andb_prop in Hv. destruct Hv as [Hd1 Hd2].
  apply Nat.leb_le in Hd1, Hd2. apply Nat.ltb_lt in Hh, Hn.
  pose proof (days_in_month_bound y m) as Hb.
  assert (Hm : m <= 12) by (apply (days_in_month_month y); lia).
  rewrite number_of_four_digits by exact Hy.
  rewrite !number_of_two_digits
    by (apply Nat.Div0.div_lt_upper_bound; lia).
  rewrite Hvalid. reflexivity.
Qed.

End ClockProperties.

(** * Further properties of the stores *)

Section StoreInvariant.

Local Open Scope list_scope.

Variable sha256_hexdigest : string -> string.

Lemma ids_issued_next (seq : Z) (ids : list Z) :
  0 <= seq -> ids_issued seq ids -> ids_issued (seq + 1) (ids ++ [seq + 1]).
Proof.
  intros Hseq [Hsorted Hbound]. split.
  - induction ids as [| i ids IH]; simpl.
    + constructor; constructor.
    + inversion Hsorted as [| ? ? Hs Hall]; subst.
      inversion Hbound as [| ? ? Hi Hrest]; subst.
      constructor; [now apply IH |].
      apply Forall_app. split; [exact Hall |].
      constructor; [lia | constructor].
  - apply Forall_app. split.
    + eapply Forall_impl; [| exact Hbound]. simpl. intros; lia.
    + constructor; [lia | constructor].
Qed.

Lemma ids_issued_NoDup (seq : Z) (ids : list Z) :
  ids_issued seq ids -> NoDup ids.
Proof.
  intros [Hsorted _]. induction Hsorted as [| i ids Hs IH Hall].
  - constructor.
  - constructor; [| exact IH].
    intro Hin. rewrite Forall_forall in Hall. specialize (Hall i Hin). lia.
Qed.

Lemma NoDup_snoc {A : Type} (l : list A) (x : A) :
  NoDup l -> ~ In x l -> NoDup (l ++ [x]).
Proof.
  intros Hl Hx. induction Hl as [| y l Hy Hl IH]; simpl.
  - constructor; [intros [] | constructor].
  - constructor.
    + rewrite in_app_iff. intros [H | [H | []]]; [now apply Hy |].
      subst. apply Hx. now left.
    + apply IH. intro H. apply Hx. now right.
Qed.

Lemma store_invariant_register_user (username password : string)
      (db : database) :
  store_invariant db ->
  store_invariant (snd (register_user sha256_hexdigest username password db)).
Proof.
  intros (Hnames & Hseq & Hids & Htseq & Htids).
  unfold register_user, insert_user.
  destruct (username_taken username db) eqn:E; simpl.
  - unfold store_invariant. tauto.
  - unfold store_invariant. simpl. rewrite !map_app. simpl.
    split; [| split; [lia | split; [| split; [exact Htseq | exact Htids]]]].
    + apply NoDup_snoc; [exact Hnames |].
      now apply username_taken_false.
    + now apply ids_issued_next.
Qed.

Lemma store_invariant_insert_transaction (user_id : Z) (r : batch.row)
      (db : database) :
  store_invariant db -> store_invariant (insert_transaction user_id r db).
Proof.
  intros (Hnames & Hseq & Hids & Htseq & Htids).
  unfold store_invariant, insert_transaction. simpl. rewrite map_app. simpl.
  split; [exact Hnames |]. split; [exact Hseq |]. split; [exact Hids |].
  split; [lia | now apply ids_issued_next].
Qed.

Lemma store_invariant_add_transactions (user_id : Z) (df : list batch.row)
      (db : database) :
  store_invariant db -> store_invariant (add_transactions user_id df db).
Proof.
  unfold add_transactions. revert db.
  induction df as [| r df IH]; intros db Hdb; simpl; [exact Hdb |].
  apply IH. now apply store_invariant_insert_transaction.
Qed.

Lemma store_invariant_save_transactions (now : datetime) (user_id : Z)
      (edited_df : list editor.row) (db : database) :
  store_invariant db ->
  store_invariant (save_transactions now user_id edited_df db).
Proof.
  intro Hdb. unfold save_transactions.
  destruct (negb (empty (drop_empty_description edited_df)));
    [now apply store_invariant_add_transactions | exact Hdb].
Qed.

Lemma store_invariant_empty : store_invariant empty_database.
Proof.
  unfold store_invariant, ids_issued. simpl.
  repeat split; try lia; constructor.
Qed.

(** X1: starting from a database in which usernames are distinct and
    both id columns are ascending, positive and bounded by their
    AUTOINCREMENT counters, every write the program makes
    ([register_user], [add_transactions], the save handler) leaves a
    database of that kind; so no two users ever share a username or an
    id and no two transactions share an id. *)
Theorem writes_keep_store_invariant (db : database)
        (username password : string) (user_id : Z) (df : list batch.row)
        (now : datetime) (edited_df : list editor.row) :
  store_invariant db ->
  let after_register :=
    snd (register_user sha256_hexdigest username password db) in
  let after_add := add_transactions user_id df db in
  let after_save := save_transactions now user_id edited_df db in
  (store_invariant after_register /\ store_invariant after_add
   /\ store_invariant after_save) /\
  (NoDup (map users.username (users_table after_register))
   /\ NoDup (map users.id (users_table after_register))) /\
  NoDup (map transactions.id (transactions_table after_add)) /\
  NoDup (map transactions.id (transactions_table after_save)).
Proof.
  intro Hdb. cbv zeta.
  pose proof (store_invariant_register_user username password Hdb) as H1.
  pose proof (store_invariant_add_transactions user_id df Hdb) as H2.
  pose proof (store_invariant_save_transactions now user_id edited_df Hdb)
    as H3.
  split; [auto |].
  destruct H1 as (Hn & _ & Hi & _ & _).
  destruct H2 as (_ & _ & _ & _ & Ht2).
  destruct H3 as (_ & _ & _ & _ & Ht3).
  split; [split; [exact Hn | eapply ids_issued_NoDup; exact Hi] |].
  split; eapply ids_issued_NoDup; eassumption.
Qed.

End StoreInvariant.

Lemma writes_keep_store_invariant_witness :
  NoDup (map transactions.id
           (transactions_table
              (save_transactions example_now 1
                 [editor.mk "Rent" "flat" "Expense" 900] same_day_ledger))).
Proof.
  apply (writes_keep_store_invariant example_digest (db := same_day_ledger)
           "bob" "hunter2" 1 [] example_now
           [editor.mk "Rent" "flat" "Expense" 900]).
  unfold store_invariant, ids_issued. vm_compute.
  repeat split; try discriminate; repeat constructor; try discriminate.
Defined.

(** ** More on the credential store *)

Section LoginProperties.

Local Open Scope list_scope.

Variable sha256_hexdigest : string -> string.

Lemma login_test_true (username password : string) (u : users.row) :
  String.eqb (users.username u) username
  && String.eqb (users.password_hash u)
                (hash_password sha256_hexdigest password) = true
  <-> credentials_match sha256_hexdigest username password u.
Proof.
  unfold credentials_match.
  rewrite andb_true_iff, !String.eqb_eq. reflexivity.
Qed.

Lemma login_user_Some (username password : string) (db : database)
      (u : users.row) :
  login_user sha256_hexdigest username password db = Some u ->
  In u (users_table db) /\ credentials_match sha256_hexdigest username password u.
Proof.
  unfold login_user. intro E. apply find_some in E.
  destruct E as [Hin Htest]. split; [exact Hin | now apply login_test_true].
Qed.

(** X2: [login_user] returns a row only if that row is in the users
    table and carries the given username and the digest of the given
    password, and it returns [None] only if no row of the table does. *)
Theorem login_user_sound_and_complete (username password : string)
        (db : database) :
  match login_user sha256_hexdigest username password db with
  | Some u => In u (users_table db) /\ credentials_match sha256_hexdigest username password u
  | None => forall u, In u (users_table db) ->
                      ~ credentials_match sha256_hexdigest username password u
  end.
Proof.
  destruct (login_user sha256_hexdigest username password db) as [u |] eqn:E.
  - now apply login_user_Some.
  - unfold login_user in E. intros u Hin Hmatch. apply login_test_true in Hmatch.
    pose proof (find_none _ _ E u Hin) as Hnone. simpl in Hnone.
    rewrite Hmatch in Hnone. discriminate.
Qed.

(** X3: when usernames are distinct in the users table and the row of
    [username] holds a digest other than the one of the password typed,
    [login_user] returns [None]: another user's password never opens
    the account. *)
Theorem login_user_wrong_password (username password : string)
        (db : database) (u : users.row) :
  NoDup (map users.username (users_table db)) ->
  In u (users_table db) ->
  users.username u = username ->
  users.password_hash u <> hash_password sha256_hexdigest password ->
  login_user sha256_hexdigest username password db = None.
Proof.
  intros Hnodup Hin Hname Hdigest. unfold login_user.
  destruct (find _ (users_table db)) as [u' |] eqn:E; [| reflexivity].
  exfalso. apply find_some in E. destruct E as [Hin' Htest].
  apply login_test_true in Htest. destruct Htest as [Hname' Hdigest'].
  assert (Hsame : u' = u).
  { clear Hdigest Hdigest'. subst username. revert Hnodup Hin Hin'.
    generalize (users_table db) as us.
    induction us as [| x us IH]; simpl; intros Hnodup Hin Hin';
      [contradiction |].
    inversion Hnodup as [| ? ? Hx Hrest]; subst.
    destruct Hin as [-> | Hin]; destruct Hin' as [-> | Hin'].
    - reflexivity.
    - exfalso. apply Hx. rewrite <- Hname'. now apply in_map.
    - exfalso. apply Hx. rewrite Hname'. now apply in_map.
    - now apply IH. }
  subst u'. contradiction.
Qed.

Lemma find_app_other {A : Type} (f : A -> bool) (l : list A) (x : A) :
  f x = false -> find f (l ++ [x]) = find f l.
Proof.
  intro Hx. induction l as [| y l IH]; simpl.
  - now rewrite Hx.
  - destruct (f y); [reflexivity | exact IH].
Qed.

(** X4: a registration under another username leaves every login with
    [username] as it was, whether it succeeded or not; and so does any
    batch of transactions written to the ledger. *)
Theorem login_user_unaffected_by_others (username password : string)
        (other other_password : string) (user_id : Z) (df : list batch.row)
        (db : database) :
  other <> username ->
  login_user sha256_hexdigest username password
    (snd (register_user sha256_hexdigest other other_password db))
  = login_user sha256_hexdigest username password db /\
  login_user sha256_hexdigest username password
    (add_transactions user_id df db)
  = login_user sha256_hexdigest username password db.
Proof.
  intro Hother. split.
  - unfold register_user, insert_user.
    destruct (username_taken other db); [reflexivity |].
    unfold login_user. simpl. apply find_app_other. simpl.
    destruct (String.eqb_spec other username); [contradiction | reflexivity].
  - unfold login_user. now rewrite add_transactions_users.
Qed.

(** X5: credentials stay valid: if [login_user] returns a row for a
    username and password, it returns the same row after any later
    [register_user] call, under any username (the same one included)
    and any password. *)
Theorem login_user_survives_registrations (username password : string)
        (any any_password : string) (db : database) (u : users.row) :
  login_user sha256_hexdigest username password db = Some u ->
  login_user sha256_hexdigest username password
    (snd (register_user sha256_hexdigest any any_password db)) = Some u.
Proof.
  intro Hlogin. destruct (String.eqb_spec any username) as [-> | Hne].
  - destruct (login_user_Some _ _ _ Hlogin) as [Hin [Hname _]].
    unfold register_user, insert_user.
    replace (username_taken username db) with true; [exact Hlogin |].
    symmetry. apply username_taken_true. rewrite <- Hname. now apply in_map.
  - unfold register_user, insert_user.
    destruct (username_taken any db); [exact Hlogin |].
    unfold login_user in *. simpl. rewrite find_app_other; [exact Hlogin |].
    simpl. destruct (String.eqb_spec any username);
      [contradiction | reflexivity].
Qed.

End LoginProperties.

Lemma login_user_wrong_password_witness :
  login_user example_digest "alice" "guess" alice_registered = None.
Proof.
  apply (@login_user_wrong_password example_digest "alice" "guess"
           alice_registered (users.mk 1 "alice" "digest:secret")).
  - vm_compute. repeat constructor. intros [].
  - vm_compute. left. reflexivity.
  - reflexivity.
  - vm_compute. discriminate.
Defined.

Lemma login_user_unaffected_by_others_witness :
  login_user example_digest "alice" "secret"
    (snd (register_user example_digest "bob" "hunter2" alice_registered))
  = login_user example_digest "alice" "secret" alice_registered /\
  login_user example_digest "alice" "secret"
    (add_transactions 1 [] alice_registered)
  = login_user example_digest "alice" "secret" alice_registered.
Proof.
  apply (@login_user_unaffected_by_others example_digest "alice" "secret"
           "bob" "hunter2" 1 [] alice_registered).
  discriminate.
Defined.

Lemma login_user_survives_registrations_witness :
  login_user example_digest "alice" "secret"
    (snd (register_user example_digest "alice" "other" alice_registered))
  = Some (users.mk 1 "alice" "digest:secret").
Proof.
  apply (@login_user_survives_registrations example_digest "alice" "secret"
           "alice" "other" alice_registered).
  reflexivity.
Defined.

(** ** More on the ledger store *)

Section LedgerRoundTrip.

Local Open Scope list_scope.

Lemma stored_rows_cells (user_id seq : Z) (df : list batch.row) :
  map entered_cells (stored_rows user_id seq df) = map batch_cells df.
Proof.
  revert seq. induction df as [| r df IH]; intro seq; simpl;
    [reflexivity | now rewrite IH].
Qed.

Lemma stored_rows_ids (user_id seq : Z) (df : list batch.row) :
  map transactions.id (stored_rows user_id seq df)
  = next_ids seq (List.length df).
Proof.
  revert seq. induction df as [| r df IH]; intro seq; simpl;
    [reflexivity | now rewrite IH].
Qed.

Lemma stored_rows_owner (user_id seq : Z) (df : list batch.row) :
  filter (fun t => Z.eqb (transactions.user_id t) user_id)
         (stored_rows user_id seq df)
  = stored_rows user_id seq df.
Proof.
  revert seq. induction df as [| r df IH]; intro seq; simpl;
    [reflexivity |].
  now rewrite Z.eqb_refl, IH.
Qed.

(** X6: what [add_transactions] writes, [get_transactions] reads back:
    after a batch for a user, the user's frame is the frame from before
    followed by one row per batch row, in batch order, with the batch's
    cells unchanged and the next consecutive ids; the users table is
    not touched. *)
Theorem get_transactions_after_add_transactions (user_id : Z)
        (df : list batch.row) (db : database) :
  exists rows,
    get_transactions user_id (add_transactions user_id df db)
    = get_transactions user_id db ++ rows /\
    map entered_cells rows = map batch_cells df /\
    map transactions.id rows
    = next_ids (transactions_seq db) (List.length df) /\
    users_table (add_transactions user_id df db) = users_table db.
Proof.
  exists (stored_rows user_id (transactions_seq db) df).
  split; [| split; [| split]].
  - unfold get_transactions.
    now rewrite add_transactions_table, filter_app, stored_rows_owner.
  - apply stored_rows_cells.
  - apply stored_rows_ids.
  - apply add_transactions_users.
Qed.

Lemma save_transactions_rows (now : datetime) (user_id : Z)
      (edited_df : list editor.row) (db : database) :
  exists rows,
    transactions_table (save_transactions now user_id edited_df db)
    = transactions_table db ++ rows /\
    Forall (fun t => transactions.user_id t = user_id
                     /\ transactions.date t = strftime_minute now) rows.
Proof.
  exists (stored_rows user_id (transactions_seq db)
            (map (with_Date (strftime_minute now))
                 (drop_empty_description edited_df))).
  split; [apply save_transactions_table |].
  generalize (transactions_seq db) as seq.
  induction (drop_empty_description edited_df) as [| r rs IH];
    intro seq; simpl; constructor.
  - split; reflexivity.
  - apply IH.
Qed.

End LedgerRoundTrip.

(** ** More on the aggregate views *)

Section ChartProperties.

Local Open Scope Q_scope.

Lemma ascending_NoDup {K : Type} (compare : K -> K -> comparison)
      {lawful : LawfulCompare compare} (s : list (K * Q)) :
  ascending compare s -> NoDup (map fst s).
Proof.
  unfold ascending. induction 1 as [| k ks Hs IH Hall].
  - constructor.
  - constructor; [| exact IH]. intro Hin.
    rewrite Forall_forall in Hall. specialize (Hall k Hin).
    rewrite (proj2 (compare_eq k k) eq_refl) in Hall. discriminate.
Qed.

Lemma parse_dates_covers (df : list transactions.row)
      (parsed : list (Timestamp * transactions.row)) :
  parse_dates df = Some parsed ->
  forall t d, In t df -> to_datetime (transactions.date t) = Some d ->
              In (d, t) parsed.
Proof.
  revert parsed. induction df as [| t0 df IH]; simpl; intros parsed P t d Hin Hd.
  - contradiction.
  - destruct (to_datetime (transactions.date t0)) as [d0 |] eqn:E;
      [| discriminate].
    destruct (parse_dates df) as [rest |]; [| discriminate].
    inversion P; subst. destruct Hin as [-> | Hin].
    + left. congruence.
    + right. now apply (IH rest eq_refl t d).
Qed.

(** X11: when every date cell has the layout the save handler writes,
    the index of the expense-trend Series ascends in time, holds no
    timestamp twice, and holds exactly the timestamps that the date
    cells of the Expense rows parse to: one entry per minute in which
    an expense was saved. *)
Theorem daily_expense_index (df : list transactions.row)
        (s : list (Timestamp * Q)) :
  daily_expense df = Some s ->
  ascending Timestamp_compare s /\
  NoDup (map fst s) /\
  (forall d, In d (map fst s)
             <-> exists t, In t df /\ transactions.type t = "Expense"%string
                           /\ to_datetime (transactions.date t) = Some d).
Proof.
  unfold daily_expense. destruct (parse_dates df) as [parsed |] eqn:P;
    [| discriminate].
  intro H. inversion H; subst; clear H.
  destruct (groupby_sum_spec (compare := Timestamp_compare)
              (map (fun dt => (fst dt, transactions.amount (snd dt)))
                   (filter (fun dt =>
                      String.eqb (transactions.type (snd dt)) "Expense")
                      parsed)))
    as (Hasc & Hkeys & _ & _).
  split; [exact Hasc |]. split; [exact (ascending_NoDup Hasc) |].
  intro d. rewrite Hkeys, map_map. simpl. rewrite in_map_iff. split.
  - intros [[d' t] [Hd Hin]]. simpl in Hd. subst d'.
    apply filter_In in Hin. destruct Hin as [Hin Ht]. simpl in Ht.
    apply String.eqb_eq in Ht.
    destruct (parse_dates_In df P d t Hin) as [Hdf Hparse]. eauto.
  - intros [t [Hin [Ht Hd]]]. exists (d, t). split; [reflexivity |].
    apply filter_In. split.
    + now apply (parse_dates_covers df P).
    + simpl. now apply String.eqb_eq.
Qed.

End ChartProperties.

Lemma daily_expense_index_witness :
  NoDup (map fst [ (mk_Timestamp 2024 3 15 9 0, 50%Q);
                   (mk_Timestamp 2024 3 15 13 30, 150%Q) ]).
Proof.
  apply (@daily_expense_index same_day_expenses
           [ (mk_Timestamp 2024 3 15 9 0, 50%Q);
             (mk_Timestamp 2024 3 15 13 30, 150%Q) ]).
  vm_compute. reflexivity.
Defined.

(** ** Date cells and the trend chart *)

Section DateCellProperties.

Lemma clock_reading_parses (now : datetime) :
  clock_reading now ->
  to_datetime (strftime_minute now) = Some (minute_of now).
Proof.
  intros [[_ Hyear] Hvalid]. now apply to_datetime_strftime_minute.
Qed.

Lemma parse_dates_total (df : list transactions.row) :
  (forall t, In t df -> exists d, to_datetime (transactions.date t) = Some d) ->
  exists parsed, parse_dates df = Some parsed.
Proof.
  induction df as [| t df IH]; simpl; intro Hall.
  - now exists [].
  - destruct (Hall t (or_introl eq_refl)) as [d Hd]. rewrite Hd.
    destruct IH as [rest Hrest].
    { intros t' Hin. apply Hall. now right. }
    rewrite Hrest. now exists ((d, t) :: rest).
Qed.

(** X12: the trend chart never fails on dates the save handler wrote:
    if every date cell of the frame is the cell written for some clock
    reading (a real date and time with a four-digit year), then
    [pd.to_datetime] parses the whole column and the Series is
    computed. *)
Theorem daily_expense_of_saved_dates (df : list transactions.row) :
  (forall t, In t df ->
     exists now, clock_reading now
                 /\ transactions.date t = strftime_minute now) ->
  exists s, daily_expense df = Some s.
Proof.
  intro Hall. unfold daily_expense.
  destruct (parse_dates_total df) as [parsed Hparsed].
  - intros t Hin. destruct (Hall t Hin) as [now [Hclock Hdate]].
    exists (minute_of now). rewrite Hdate. now apply clock_reading_parses.
  - rewrite Hparsed. eauto.
Qed.

(** X13: date cells keep the minute and nothing finer: two clock
    readings are written as the same date cell exactly when they fall
    in the same minute of the same day, whatever their seconds. *)
Theorem strftime_minute_same_cell (t1 t2 : datetime) :
  clock_reading t1 -> clock_reading t2 ->
  (strftime_minute t1 = strftime_minute t2 <-> minute_of t1 = minute_of t2).
Proof.
  intros H1 H2. split; intro H.
  - apply clock_reading_parses in H1. apply clock_reading_parses in H2.
    rewrite H in H1. congruence.
  - destruct t1, t2. unfold minute_of in H. simpl in H. inversion H; subst.
    reflexivity.
Qed.

End DateCellProperties.

Lemma daily_expense_of_saved_dates_witness :
  exists s, daily_expense same_day_expenses = Some s.
Proof.
  apply (@daily_expense_of_saved_dates same_day_expenses).
  intros t [<- | [<- | []]].
  - exists morning. split; [| reflexivity].
    split; [simpl; lia | reflexivity].
  - exists afternoon. split; [| reflexivity].
    split; [simpl; lia | reflexivity].
Defined.

Lemma strftime_minute_same_cell_witness :
  strftime_minute morning = strftime_minute (mk_datetime 2024 3 15 9 0 59)
  <-> minute_of morning = minute_of (mk_datetime 2024 3 15 9 0 59).
Proof.
  apply (@strftime_minute_same_cell morning (mk_datetime 2024 3 15 9 0 59)).
  - split; [simpl; lia | reflexivity].
  - split; [simpl; lia | reflexivity].
Defined.

(** ** The export read back *)

Section ExportRoundTrip.

Variable float_repr : Q -> string.

Lemma append_char (a : ascii) (s : string) :
  String a EmptyString ++ s = String a s.
Proof. reflexivity. Qed.

Lemma special_false (c : ascii) :
  special c = false ->
  Ascii.eqb c quote_char = false /\ Ascii.eqb c comma = false
  /\ Ascii.eqb c line_feed = false.
Proof.
  unfold special. intro H.
  apply orb_false_elim in H. destruct H as [H _].
  apply orb_false_elim in H. destruct H as [H Hlf].
  apply orb_false_elim in H. destruct H as [Hc Hq]. auto.
Qed.

Lemma read_from_quoted (s rest : string) :
  read_from in_quoted (double_quotes s ++ String quote_char rest)
  = push_string s (read_from after_quote rest).
Proof.
  induction s as [| c s IH]; simpl.
  - reflexivity.
  - destruct (Ascii.eqb c quote_char) eqn:E; simpl.
    + rewrite IH. apply Ascii.eqb_eq in E. now subst c.
    + rewrite E, IH. reflexivity.
Qed.

Lemma read_from_plain (s rest : string) :
  needs_quoting s = false ->
  read_from in_cell (s ++ rest) = push_string s (read_from in_cell rest).
Proof.
  induction s as [| c s IH]; simpl; intro H; [reflexivity |].
  apply orb_false_elim in H. destruct H as [Hc Hs].
  destruct (special_false c Hc) as (Hq & Hcomma & Hlf).
  rewrite Hcomma, Hlf, (IH Hs). reflexivity.
Qed.

Lemma read_from_plain_start (st : reader_state) (c : ascii) (s rest : string) :
  st = record_start \/ st = cell_start ->
  needs_quoting (String c s) = false ->
  read_from st (String c s ++ rest)
  = push_string (String c s) (read_from in_cell rest).
Proof.
  intros Hst H. simpl in H.
  apply orb_false_elim in H. destruct H as [Hc Hs].
  destruct (special_false c Hc) as (Hq & Hcomma & Hlf).
  destruct Hst as [-> | ->]; simpl;
    rewrite Hq, Hcomma, Hlf, (read_from_plain s rest Hs); reflexivity.
Qed.

(** A cell followed by a comma. *)
Lemma read_from_cell_comma (st : reader_state) (c rest : string) :
  st = record_start \/ st = cell_start ->
  read_from st (csv_field c ++ String comma rest)
  = push_string c (new_cell (read_from cell_start rest)).
Proof.
  intro Hst. unfold csv_field. destruct (needs_quoting c) eqn:E.
  - assert (Hq : read_from st
                   (String quote_char
                      (double_quotes c ++ String quote_char EmptyString)
                    ++ String comma rest)
                 = read_from in_quoted
                     (double_quotes c
                      ++ String quote_char (String comma rest))).
    { simpl. rewrite append_assoc. simpl.
      destruct Hst as [-> | ->]; reflexivity. }
    rewrite Hq, read_from_quoted. reflexivity.
  - destruct c as [| x c].
    + destruct Hst as [-> | ->]; reflexivity.
    + rewrite (@read_from_plain_start st x c (String comma rest) Hst E).
      reflexivity.
Qed.

(** The last cell of a record, followed by the line feed. *)
Lemma read_from_cell_line_feed (c rest : string) :
  read_from cell_start (csv_field c ++ String line_feed rest)
  = push_string c ([EmptyString] :: read_from record_start rest).
Proof.
  unfold csv_field. destruct (needs_quoting c) eqn:E.
  - simpl. rewrite append_assoc. simpl. rewrite read_from_quoted.
    reflexivity.
  - destruct c as [| x c].
    + reflexivity.
    + rewrite (@read_from_plain_start cell_start x c
                 (String line_feed rest) (or_intror eq_refl) E).
      reflexivity.
Qed.

Lemma push_string_new_cell (c : string) (cells : list string)
      (records : list (list string)) :
  push_string c ((EmptyString :: cells) :: records) = (c :: cells) :: records.
Proof.
  induction c as [| x c IH]; simpl; [reflexivity | now rewrite IH].
Qed.

Lemma read_from_cells (c : string) (cs : list string) (rest : string) :
  read_from cell_start
    (String.concat (String comma EmptyString) (map csv_field (c :: cs))
     ++ String line_feed rest)
  = (c :: cs) :: read_from record_start rest.
Proof.
  revert c. induction cs as [| c' cs IH]; intro c.
  - change (String.concat (String comma EmptyString) (map csv_field [c]))
      with (csv_field c).
    rewrite read_from_cell_line_feed. apply push_string_new_cell.
  - change (String.concat (String comma EmptyString)
              (map csv_field (c :: c' :: cs)))
      with (csv_field c ++ String comma EmptyString
            ++ String.concat (String comma EmptyString)
                 (map csv_field (c' :: cs))).
    rewrite !append_assoc, append_char.
    rewrite read_from_cell_comma by (right; reflexivity).
    rewrite IH. simpl new_cell. apply push_string_new_cell.
Qed.

(** A record of two or more cells reads back as its cells. *)
Lemma read_from_record (c c' : string) (cs : list string) (rest : string) :
  read_from record_start (csv_record (c :: c' :: cs) ++ rest)
  = (c :: c' :: cs) :: read_from record_start rest.
Proof.
  unfold csv_record.
  change (String.concat (String comma EmptyString)
            (map csv_field (c :: c' :: cs)))
    with (csv_field c ++ String comma EmptyString
          ++ String.concat (String comma EmptyString)
               (map csv_field (c' :: cs))).
  rewrite !append_assoc, !append_char.
  rewrite read_from_cell_comma by (left; reflexivity).
  rewrite read_from_cells. simpl new_cell. apply push_string_new_cell.
Qed.

Lemma read_from_rows (df : list transactions.row) :
  read_from record_start
    (String.concat EmptyString
       (map (fun t => csv_record (cells float_repr t)) df))
  = map (cells float_repr) df.
Proof.
  induction df as [| t df IH]; [reflexivity |].
  destruct df as [| t' df].
  - change (read_from record_start (csv_record (cells float_repr t))
            = [cells float_repr t]).
    rewrite <- (append_empty_r (csv_record (cells float_repr t))).
    unfold cells at 1. rewrite read_from_record. reflexivity.
  - change (String.concat EmptyString
              (map (fun t => csv_record (cells float_repr t)) (t :: t' :: df)))
      with (csv_record (cells float_repr t) ++
            String.concat EmptyString
              (map (fun t => csv_record (cells float_repr t)) (t' :: df))).
    unfold cells at 1. rewrite read_from_record, IH. reflexivity.
Qed.

(** X16: the export loses nothing: read back as CSV, the text that
    [to_csv] writes is the header record with the seven column names
    followed by one record per row holding the row's seven cells,
    character for character, whatever commas, quotes or line breaks
    the cells contain. *)
Theorem read_csv_to_csv (df : list transactions.row) :
  read_csv (to_csv float_repr df) = columns :: map (cells float_repr) df.
Proof.
  unfold read_csv, to_csv. unfold columns at 1.
  rewrite read_from_record, read_from_rows. reflexivity.
Qed.

End ExportRoundTrip.

(** * The page script *)

Section PageProperties.

Local Open Scope list_scope.

Variable sha256_hexdigest : string -> string.
Variable float_repr : Q -> string.
Variable pie_chart_raises : list transactions.row -> bool.

Lemma script_session_after (p : pressed) (s : session.state) (db : database) :
  session_after (script sha256_hexdigest float_repr pie_chart_raises p s db)
  = fst (fst (authentication sha256_hexdigest p s db)).
Proof.
  unfold script.
  destruct (authentication sha256_hexdigest p s db) as [[s1 db1] msgs].
  unfold main_app. simpl.
  destruct (session.logged_in s1); [| reflexivity].
  destruct (session.user_id s1) as [uid |]; [| reflexivity].
  destruct (save_button p uid db1) as [db2 saved].
  destruct (negb (empty (get_transactions uid db2))); [| reflexivity].
  destruct (show_summary float_repr pie_chart_raises (get_transactions uid db2)); reflexivity.
Qed.

Lemma script_database_after (p : pressed) (s : session.state) (db : database) :
  database_after (script sha256_hexdigest float_repr pie_chart_raises p s db)
  = let s1 := fst (fst (authentication sha256_hexdigest p s db)) in
    let db1 := snd (fst (authentication sha256_hexdigest p s db)) in
    if session.logged_in s1 then
      match session.user_id s1 with
      | Some uid => fst (save_button p uid db1)
      | None => db1
      end
    else db1.
Proof.
  unfold script.
  destruct (authentication sha256_hexdigest p s db) as [[s1 db1] msgs].
  unfold main_app. simpl.
  destruct (session.logged_in s1); [| reflexivity].
  destruct (session.user_id s1) as [uid |]; [| reflexivity].
  destruct (save_button p uid db1) as [db2 saved]. simpl.
  destruct (negb (empty (get_transactions uid db2))); [| reflexivity].
  destruct (show_summary float_repr pie_chart_raises (get_transactions uid db2)); reflexivity.
Qed.

(** The sidebar leaves the session alone unless a login succeeds, and
    then the session holds the id of the row that matched. *)
Lemma authentication_session (p : pressed) (s : session.state)
      (db : database) :
  fst (fst (authentication sha256_hexdigest p s db)) = s \/
  exists username password user,
    p = Login username password /\
    login_user sha256_hexdigest username password db = Some user /\
    fst (fst (authentication sha256_hexdigest p s db))
    = session.mk true (Some (users.id user)).
Proof.
  destruct p as [| u pw | u pw | e now]; simpl; auto.
  - destruct (register_user sha256_hexdigest u pw db) as [[|] db']; auto.
  - destruct (login_user sha256_hexdigest u pw db) as [user |] eqn:E; auto.
    right. exists u, pw, user. auto.
Qed.

(** The sidebar writes to the database only by [register_user]. *)
Lemma authentication_database (p : pressed) (s : session.state)
      (db : database) :
  snd (fst (authentication sha256_hexdigest p s db))
  = match p with
    | Register username password =>
        snd (register_user sha256_hexdigest username password db)
    | _ => db
    end.
Proof.
  destruct p as [| u pw | u pw | e now]; simpl; auto.
  - destruct (register_user sha256_hexdigest u pw db) as [[|] db'];
      reflexivity.
  - destruct (login_user sha256_hexdigest u pw db); reflexivity.
Qed.

Lemma register_user_tables (username password : string) (db : database) :
  (exists l, users_table
               (snd (register_user sha256_hexdigest username password db))
             = users_table db ++ l) /\
  transactions_table
    (snd (register_user sha256_hexdigest username password db))
  = transactions_table db.
Proof.
  unfold register_user, insert_user.
  destruct (username_taken username db); simpl.
  - split; [exists []; now rewrite app_nil_r | reflexivity].
  - split; [eexists; reflexivity | reflexivity].
Qed.

Lemma save_button_database (p : pressed) (uid : Z) (db : database) :
  fst (save_button p uid db)
  = match p with
    | Save_Transactions edited_df now =>
        save_transactions now uid edited_df db
    | _ => db
    end.
Proof. destruct p; reflexivity. Qed.

Lemma save_transactions_users (now : datetime) (uid : Z)
      (edited_df : list editor.row) (db : database) :
  users_table (save_transactions now uid edited_df db) = users_table db.
Proof.
  unfold save_transactions.
  destruct (negb (empty (drop_empty_description edited_df)));
    [apply add_transactions_users | reflexivity].
Qed.

(** What one run does to the two tables: the users table only grows at
    its end, and the transactions table only grows at its end, by rows
    of the user the session is logged in as, dated with the clock
    reading of the press. *)
Lemma script_tables (p : pressed) (s : session.state) (db : database) :
  let db' := database_after (script sha256_hexdigest float_repr pie_chart_raises p s db) in
  (exists l, users_table db' = users_table db ++ l) /\
  (exists rows,
      transactions_table db' = transactions_table db ++ rows /\
      (rows = [] \/
       exists edited_df now uid,
         p = Save_Transactions edited_df now /\
         session.logged_in s = true /\ session.user_id s = Some uid /\
         Forall (fun t => transactions.user_id t = uid
                          /\ transactions.date t = strftime_minute now)
                rows)).
Proof.
  cbv zeta. rewrite script_database_after. cbv zeta.
  rewrite authentication_database.
  destruct p as [| u pw | u pw | e now].
  - simpl. destruct (session.logged_in s); [destruct (session.user_id s) |];
      (split; [exists []; now rewrite app_nil_r
              | exists []; split; [now rewrite app_nil_r | now left]]).
  - destruct (register_user_tables u pw db) as [Hu Ht].
    assert (Hsame : forall uid,
               fst (save_button (Register u pw) uid
                      (snd (register_user sha256_hexdigest u pw db)))
               = snd (register_user sha256_hexdigest u pw db))
      by reflexivity.
    destruct (session.logged_in _); [destruct (session.user_id _) |];
      try rewrite Hsame;
      (split; [exact Hu
              | exists []; split; [now rewrite app_nil_r, Ht | now left]]).
  - assert (Hsame : forall uid, fst (save_button (Login u pw) uid db) = db)
      by reflexivity.
    destruct (session.logged_in _); [destruct (session.user_id _) |];
      try rewrite Hsame;
      (split; [exists []; now rewrite app_nil_r
              | exists []; split; [now rewrite app_nil_r | now left]]).
  - simpl. destruct (session.logged_in s) eqn:Hl;
      [destruct (session.user_id s) as [uid |] eqn:Hu |].
    + split; [exists []; now rewrite app_nil_r, save_transactions_users |].
      destruct (save_transactions_rows now uid e db)
        as [rows [Htable Hrows]].
      exists rows. split; [exact Htable |].
      right. exists e, now, uid. auto.
    + split; [exists []; now rewrite app_nil_r
             | exists []; split; [now rewrite app_nil_r | now left]].
    + split; [exists []; now rewrite app_nil_r
             | exists []; split; [now rewrite app_nil_r | now left]].
Qed.

End PageProperties.

Section WorldProperties.

Local Open Scope list_scope.

Variable sha256_hexdigest : string -> string.
Variable float_repr : Q -> string.
Variable pie_chart_raises : list transactions.row -> bool.

Lemma Forall_replace_nth {A : Type} (P : A -> Prop) (n : nat) (x : A)
      (l : list A) :
  Forall P l -> P x -> Forall P (replace_nth n x l).
Proof.
  intros Hl Hx. revert n.
  induction Hl as [| y l Hy Hl IH]; intros [| n]; simpl; constructor; auto.
Qed.

Lemma script_store_invariant (p : pressed) (s : session.state)
      (db : database) :
  store_invariant db ->
  store_invariant
    (database_after (script sha256_hexdigest float_repr pie_chart_raises p s db)).
Proof.
  intro Hdb. rewrite script_database_after. cbv zeta.
  rewrite authentication_database.
  assert (H1 : store_invariant
                 match p with
                 | Register username password =>
                     snd (register_user sha256_hexdigest username password db)
                 | _ => db
                 end).
  { destruct p; try exact Hdb. now apply store_invariant_register_user. }
  destruct (session.logged_in _); [| exact H1].
  destruct (session.user_id _) as [uid |]; [| exact H1].
  rewrite save_button_database.
  destruct p; try exact H1. now apply store_invariant_save_transactions.
Qed.

Lemma session_ok_grows (db db' : database) (s : session.state) :
  (exists l, users_table db' = users_table db ++ l) ->
  session_ok db s -> session_ok db' s.
Proof.
  intros [l Hl] Hs Hlogged. destruct (Hs Hlogged) as [id [Hid Hin]].
  exists id. split; [exact Hid |].
  rewrite Hl, map_app, in_app_iff. now left.
Qed.

Lemma interact_keeps_invariant (w : world) (i : nat) (p : pressed) :
  world_invariant w -> pressed_ok p ->
  world_invariant (interact sha256_hexdigest float_repr pie_chart_raises i p w).
Proof.
  intros (Hstore & Hfk & Hdates & Hsessions) Hp. unfold interact.
  destruct (nth_error (sessions w) i) as [s |] eqn:Hs;
    [| unfold world_invariant; auto].
  assert (Hsok : session_ok (store w) s).
  { rewrite Forall_forall in Hsessions. apply Hsessions.
    eapply nth_error_In; eassumption. }
  destruct (script_tables sha256_hexdigest float_repr pie_chart_raises p s (store w))
    as [Husers [rows [Hrows Hnew]]].
  unfold world_invariant. simpl.
  split; [now apply script_store_invariant |].
  destruct Husers as [l Hl].
  split; [| split].
  - rewrite Hrows, Hl, map_app. apply Forall_app. split.
    + eapply Forall_impl; [| exact Hfk]. simpl. intros t Ht.
      rewrite in_app_iff. now left.
    + destruct Hnew as [-> | (e & now & uid & _ & Hlogged & Huid & Hall)];
        [constructor |].
      destruct (Hsok Hlogged) as [id [Hid Hin]].
      assert (id = uid) by congruence. subst id.
      eapply Forall_impl; [| exact Hall]. simpl. intros t [Ht _].
      rewrite Ht, in_app_iff. now left.
  - rewrite Hrows. apply Forall_app. split; [exact Hdates |].
    destruct Hnew as [-> | (e & now & uid & -> & _ & _ & Hall)];
      [constructor |].
    eapply Forall_impl; [| exact Hall]. simpl. intros t [_ Ht].
    exists now. auto.
  - apply Forall_replace_nth.
    + eapply Forall_impl; [| exact Hsessions].
      intros s0 Hs0. eapply session_ok_grows; [| exact Hs0]. eauto.
    + rewrite script_session_after.
      destruct (authentication_session sha256_hexdigest p s (store w))
        as [-> | (u & pw & user & _ & Hlogin & ->)].
      * eapply session_ok_grows; [| exact Hsok]. eauto.
      * intros _. exists (users.id user). split; [reflexivity |].
        apply login_user_Some in Hlogin. destruct Hlogin as [Hin _].
        rewrite Hl, map_app, in_app_iff. left. now apply in_map.
Qed.

Lemma reachable_invariant (w : world) :
  reachable sha256_hexdigest float_repr pie_chart_raises w -> world_invariant w.
Proof.
  induction 1 as [| w Hw IH | w i p Hw IH Hp].
  - unfold world_invariant. simpl.
    split; [apply store_invariant_empty | repeat split; constructor].
  - destruct IH as (H1 & H2 & H3 & H4). unfold world_invariant. simpl.
    repeat split; try assumption; try apply H1.
    apply Forall_app. split; [exact H4 |].
    constructor; [| constructor]. intro H. discriminate.
  - now apply interact_keeps_invariant.
Qed.

(** X17: in every world the program reaches from the empty database,
    with any number of browser sessions pressing buttons in any order:
    usernames are distinct, user ids and transaction ids are distinct,
    every transaction carries the id of a registered user, every date
    cell parses, and every session that is logged in holds the id of a
    registered user. *)
Theorem reachable_world_is_consistent (w : world) :
  reachable sha256_hexdigest float_repr pie_chart_raises w ->
  NoDup (map users.username (users_table (store w))) /\
  NoDup (map users.id (users_table (store w))) /\
  NoDup (map transactions.id (transactions_table (store w))) /\
  (forall t, In t (transactions_table (store w)) ->
     (exists u, In u (users_table (store w))
                /\ users.id u = transactions.user_id t) /\
     (exists d, to_datetime (transactions.date t) = Some d)) /\
  (forall s, In s (sessions w) -> session.logged_in s = true ->
     exists u, In u (users_table (store w))
               /\ session.user_id s = Some (users.id u)).
Proof.
  intro Hw. apply reachable_invariant in Hw.
  destruct Hw as ((Hn & _ & Hu & _ & Ht) & Hfk & Hdates & Hsessions).
  split; [exact Hn |].
  split; [eapply ids_issued_NoDup; exact Hu |].
  split; [eapply ids_issued_NoDup; exact Ht |]. split.
  - intros t Hin. rewrite Forall_forall in Hfk, Hdates. split.
    + specialize (Hfk t Hin). apply in_map_iff in Hfk.
      destruct Hfk as [u [Hid Hu']]. eauto.
    + destruct (Hdates t Hin) as [now [Hclock Hdate]].
      exists (minute_of now). rewrite Hdate. now apply clock_reading_parses.
  - intros s Hin Hlogged. rewrite Forall_forall in Hsessions.
    destruct (Hsessions s Hin Hlogged) as [id [Hid Hin']].
    apply in_map_iff in Hin'. destruct Hin' as [u [Hu' Hin']].
    exists u. split; [exact Hin' | now rewrite Hu'].
Qed.

End WorldProperties.

Lemma reachable_world_is_consistent_witness :
  NoDup (map users.username (users_table (store alice_world))) /\
  NoDup (map users.id (users_table (store alice_world))) /\
  NoDup (map transactions.id (transactions_table (store alice_world))) /\
  (forall t, In t (transactions_table (store alice_world)) ->
     (exists u, In u (users_table (store alice_world))
                /\ users.id u = transactions.user_id t) /\
     (exists d, to_datetime (transactions.date t) = Some d)) /\
  (forall s, In s (sessions alice_world) -> session.logged_in s = true ->
     exists u, In u (users_table (store alice_world))
               /\ session.user_id s = Some (users.id u)).
Proof.
  apply (@reachable_world_is_consistent example_digest example_float_repr
           example_pie_chart_raises
           alice_world).
  apply reachable_interact.
  - apply reachable_interact; [| exact I].
    apply reachable_interact; [| exact I].
    apply reachable_connect. apply reachable_initial.
  - split; [simpl; lia | reflexivity].
Defined.

Section SessionProperties.

Local Open Scope list_scope.

Variable sha256_hexdigest : string -> string.
Variable float_repr : Q -> string.
Variable pie_chart_raises : list transactions.row -> bool.

(** X19: a run changes the session state only when a login succeeds,
    and then to logged in with the id of the row [login_user]
    returned; a failed login, a registration, a save and a plain rerun
    leave it as it was, so nothing a session does logs it out. *)
Theorem script_session (p : pressed) (s : session.state) (db : database) :
  session_after (script sha256_hexdigest float_repr pie_chart_raises p s db)
  = match p with
    | Login username password =>
        match login_user sha256_hexdigest username password db with
        | Some user => session.mk true (Some (users.id user))
        | None => s
        end
    | _ => s
    end.
Proof.
  rewrite script_session_after.
  destruct p as [| u pw | u pw | e now]; simpl; try reflexivity.
  - destruct (register_user sha256_hexdigest u pw db) as [[|] db'];
      reflexivity.
  - destruct (login_user sha256_hexdigest u pw db); reflexivity.
Qed.

(** X21: a run never touches the ledger of a user other than the one
    its session holds: for every user id [v] that is not the session's
    [user_id], [get_transactions v] gives the same frame after the run
    as before, whatever was pressed. *)
Theorem script_leaves_other_ledgers (p : pressed) (s : session.state)
        (db : database) (v : Z) :
  session.user_id s <> Some v ->
  get_transactions v
    (database_after (script sha256_hexdigest float_repr pie_chart_raises p s db))
  = get_transactions v db.
Proof.
  intro Hother.
  destruct (script_tables sha256_hexdigest float_repr pie_chart_raises p s db)
    as [_ [rows [Hrows Hnew]]].
  unfold get_transactions. rewrite Hrows, filter_app.
  destruct Hnew as [-> | (e & now & uid & _ & _ & Huid & Hall)];
    [apply app_nil_r |].
  assert (Hne : uid <> v) by congruence.
  replace (filter (fun t => Z.eqb (transactions.user_id t) v) rows)
    with (@nil transactions.row); [apply app_nil_r |].
  symmetry. clear Hrows. induction Hall as [| t rows [Ht _] Hall IH]; simpl.
  - reflexivity.
  - rewrite Ht. destruct (Z.eqb_spec uid v); [contradiction | exact IH].
Qed.

End SessionProperties.

Lemma script_leaves_other_ledgers_witness :
  get_transactions 1
    (database_after
       (script example_digest example_float_repr example_pie_chart_raises
          (Save_Transactions [editor.mk "Rent" "flat" "Expense" 900]
             example_now)
          (session.mk true (Some 2)) same_day_ledger))
  = get_transactions 1 same_day_ledger.
Proof.
  apply (@script_leaves_other_ledgers example_digest example_float_repr
           example_pie_chart_raises
           (Save_Transactions [editor.mk "Rent" "flat" "Expense" 900]
              example_now)
           (session.mk true (Some 2)) same_day_ledger 1).
  discriminate.
Defined.

(** * The aggregate views in double precision *)

Section FrameGroups.

Local Open Scope list_scope.

Lemma string_compare_refl (k : string) : String.compare k k = Eq.
Proof. now apply (@compare_eq _ String.compare _). Qed.

Lemma string_compare_eq (a b : string) : String.compare a b = Eq -> a = b.
Proof. now apply (@compare_eq _ String.compare _). Qed.

Lemma string_compare_gt_lt (a b : string) :
  String.compare a b = Gt -> String.compare b a = Lt.
Proof.
  intro H. rewrite (@compare_antisym _ String.compare _ a b), H. reflexivity.
Qed.

Lemma string_compare_eqb (a b : string) :
  String.eqb b a = match String.compare a b with Eq => true | _ => false end.
Proof.
  destruct (String.compare a b) eqn:E.
  - apply string_compare_eq in E. subst. apply String.eqb_refl.
  - destruct (String.eqb_spec b a) as [-> | _]; [| reflexivity].
    rewrite string_compare_refl in E. discriminate.
  - destruct (String.eqb_spec b a) as [-> | _]; [| reflexivity].
    rewrite string_compare_refl in E. discriminate.
Qed.

Lemma add_to_groups_keys (k : string) (v : PrimFloat.float)
      (s : list (string * list PrimFloat.float)) (k' : string) :
  In k' (map fst (frame.add_to_groups k v s))
  <-> k' = k \/ In k' (map fst s).
Proof.
  induction s as [| [k1 vs] s IH]; simpl.
  - intuition.
  - destruct (String.compare k k1) eqn:E; simpl.
    + apply string_compare_eq in E. subst k1. intuition.
    + intuition.
    + rewrite IH. intuition.
Qed.

Lemma add_to_groups_ascending (k : string) (v : PrimFloat.float)
      (s : list (string * list PrimFloat.float)) :
  frame.keys_ascending s -> frame.keys_ascending (frame.add_to_groups k v s).
Proof.
  unfold frame.keys_ascending. induction s as [| [k1 vs] s IH]; simpl; intro Hs.
  - constructor; constructor.
  - inversion Hs as [| ? ? Hs' Hall]; subst.
    destruct (String.compare k k1) eqn:E; simpl.
    + constructor; assumption.
    + constructor; [exact Hs |].
      constructor; [exact E |].
      eapply Forall_impl; [| exact Hall].
      intros a Ha. simpl in Ha.
      eapply (@compare_trans _ String.compare _); eassumption.
    + constructor; [now apply IH |].
      apply Forall_forall. intros a Ha.
      apply add_to_groups_keys in Ha. destruct Ha as [-> | Ha].
      * now apply string_compare_gt_lt.
      * rewrite Forall_forall in Hall. now apply Hall.
Qed.

Lemma group_at_below (k : string) (s : list (string * list PrimFloat.float)) :
  Forall (fun a => String.compare k a = Lt) (map fst s) ->
  frame.group_at k s = None.
Proof.
  induction s as [| [k1 vs] s IH]; simpl; intro H; [reflexivity |].
  inversion H as [| ? ? H1 H2]; subst. simpl in H1. rewrite H1. now apply IH.
Qed.

Lemma group_at_add_to_groups (k : string) (v : PrimFloat.float)
      (s : list (string * list PrimFloat.float)) (k' : string) :
  frame.keys_ascending s ->
  frame.group_at k' (frame.add_to_groups k v s)
  = match String.compare k' k with
    | Eq => Some match frame.group_at k s with
                 | Some vs => vs ++ [v]
                 | None => [v]
                 end
    | _ => frame.group_at k' s
    end.
Proof.
  unfold frame.keys_ascending. induction s as [| [k1 vs] s IH]; simpl; intro Hs.
  - destruct (String.compare k' k); reflexivity.
  - inversion Hs as [| ? ? Hs' Hall]; subst.
    destruct (String.compare k k1) eqn:E; simpl.
    + apply string_compare_eq in E. subst k1.
      destruct (String.compare k' k); reflexivity.
    + destruct (String.compare k' k) eqn:E'; try reflexivity.
      apply string_compare_eq in E'. subst k'.
      rewrite group_at_below; [reflexivity |].
      eapply Forall_impl; [| exact Hall].
      intros a Ha. simpl in Ha.
      eapply (@compare_trans _ String.compare _); eassumption.
    + rewrite (IH Hs'). destruct (String.compare k' k1) eqn:E1.
      * apply string_compare_eq in E1. subst k'.
        rewrite (string_compare_gt_lt _ _ E). reflexivity.
      * reflexivity.
      * reflexivity.
Qed.

Lemma group_at_In (k : string) (vs : list PrimFloat.float)
      (s : list (string * list PrimFloat.float)) :
  frame.keys_ascending s -> (In (k, vs) s <-> frame.group_at k s = Some vs).
Proof.
  unfold frame.keys_ascending. induction s as [| [k1 vs1] s IH]; simpl; intro Hs.
  - split; [contradiction | discriminate].
  - inversion Hs as [| ? ? Hs' Hall]; subst.
    destruct (String.compare k k1) eqn:E.
    + apply string_compare_eq in E. subst k1. split.
      * intros [H | H]; [now inversion H |].
        exfalso. rewrite Forall_forall in Hall.
        assert (Hlt : String.compare k k = Lt).
        { apply Hall. apply in_map_iff. exists (k, vs). auto. }
        rewrite string_compare_refl in Hlt. discriminate.
      * intro H. inversion H. now left.
    + rewrite <- (IH Hs'). split; [| now right].
      intros [H | H]; [| exact H].
      inversion H; subst. rewrite string_compare_refl in E. discriminate.
    + rewrite <- (IH Hs'). split; [| now right].
      intros [H | H]; [| exact H].
      inversion H; subst. rewrite string_compare_refl in E. discriminate.
Qed.

Lemma fold_add_to_groups (rows : list (option string * PrimFloat.float))
      (s : list (string * list PrimFloat.float)) :
  frame.keys_ascending s ->
  let s' := fold_left (fun s kv => match fst kv with
                                   | Some k => frame.add_to_groups k (snd kv) s
                                   | None => s
                                   end) rows s in
  frame.keys_ascending s' /\
  forall k, frame.group_at k s'
            = frame.extended (frame.group_at k s) (frame.members k rows).
Proof.
  revert s. induction rows as [| [[k0 |] v] rows IH]; intros s Hs; simpl.
  - split; [exact Hs | reflexivity].
  - destruct (IH _ (add_to_groups_ascending k0 v Hs)) as [Ha Hg].
    split; [exact Ha |]. intro k. simpl in Hg. rewrite Hg.
    rewrite (group_at_add_to_groups k0 v k Hs), (string_compare_eqb k k0).
    destruct (String.compare k k0) eqn:E; try reflexivity.
    apply string_compare_eq in E. subst k0.
    destruct (frame.members k rows) as [| m ms]; simpl.
    + reflexivity.
    + destruct (frame.group_at k s); simpl; [| reflexivity].
      now rewrite <- app_assoc.
  - apply (IH s Hs).
Qed.

(** What the group-by holds: the keys ascend, and the group of a key
    is there exactly when some row carries the key, with the values of
    those rows in frame order. *)
Lemma groups_spec (rows : list (option string * PrimFloat.float)) :
  frame.keys_ascending (frame.groups rows) /\
  forall k vs, In (k, vs) (frame.groups rows)
               <-> vs = frame.members k rows /\ frame.members k rows <> [].
Proof.
  unfold frame.groups.
  assert (Hnil : frame.keys_ascending (@nil (string * list PrimFloat.float)))
    by constructor.
  destruct (fold_add_to_groups rows Hnil) as [Ha Hg]. simpl in Ha, Hg.
  split; [exact Ha |]. intros k vs.
  rewrite (group_at_In k vs Ha), Hg. simpl.
  destruct (frame.members k rows) as [| m ms]; simpl.
  - split; [discriminate | intros [_ H]; now contradiction H].
  - split.
    + intro H. inversion H. split; [reflexivity | discriminate].
    + intros [-> _]. reflexivity.
Qed.

Lemma members_nonempty (k : string)
      (rows : list (option string * PrimFloat.float)) :
  frame.members k rows <> [] <-> exists v, In (Some k, v) rows.
Proof.
  induction rows as [| [[k0 |] v] rows IH]; simpl.
  - split; [intro H; now contradiction H | intros [v []]].
  - destruct (String.eqb_spec k0 k) as [-> | Hne].
    + split; [intros _; exists v; now left | discriminate].
    + rewrite IH. split.
      * intros [v' H]. exists v'. now right.
      * intros [v' [H | H]]; [inversion H; contradiction | eauto].
  - rewrite IH. split.
    + intros [v' H]. exists v'. now right.
    + intros [v' [H | H]]; [discriminate | eauto].
Qed.

End FrameGroups.

Section FrameAggregates.

Local Open Scope list_scope.

Variable Series_sum : list PrimFloat.float -> PrimFloat.float.
Variable group_sum : list PrimFloat.float -> PrimFloat.float.

Lemma has_type_true (k : string) (r : frame.row) :
  frame.has_type k r = true <-> frame.type r = Some k.
Proof.
  unfold frame.has_type. destruct (frame.type r) as [t |].
  - rewrite String.eqb_eq. split; congruence.
  - split; discriminate.
Qed.

Lemma has_category_true (c : string) (r : frame.row) :
  frame.has_category c r = true <-> frame.category r = Some c.
Proof.
  unfold frame.has_category. destruct (frame.category r) as [t |].
  - rewrite String.eqb_eq. split; congruence.
  - split; discriminate.
Qed.

Lemma groupby_sum_In (rows : list (option string * PrimFloat.float))
      (k : string) (v : PrimFloat.float) :
  In (k, v) (frame.groupby_sum group_sum rows)
  <-> v = group_sum (frame.members k rows) /\ frame.members k rows <> [].
Proof.
  unfold frame.groupby_sum. rewrite in_map_iff.
  destruct (groups_spec rows) as [_ Hg]. split.
  - intros [[k' vs] [Heq Hin]]. simpl in Heq. inversion Heq; subst.
    apply Hg in Hin. destruct Hin as [-> Hne]. auto.
  - intros [-> Hne]. exists (k, frame.members k rows).
    split; [reflexivity |]. apply Hg. auto.
Qed.

Lemma groupby_sum_keys (rows : list (option string * PrimFloat.float))
      (k : string) :
  In k (map fst (frame.groupby_sum group_sum rows))
  <-> exists v, In (Some k, v) rows.
Proof.
  rewrite <- members_nonempty, in_map_iff. split.
  - intros [[k' v] [Hk Hin]]. simpl in Hk. subst k'.
    now apply groupby_sum_In in Hin.
  - intro Hne. exists (k, group_sum (frame.members k rows)).
    split; [reflexivity |]. apply groupby_sum_In. auto.
Qed.

Lemma groupby_sum_ascending (rows : list (option string * PrimFloat.float)) :
  frame.keys_ascending (frame.groupby_sum group_sum rows).
Proof.
  unfold frame.keys_ascending, frame.groupby_sum. rewrite map_map. simpl.
  apply groups_spec.
Qed.

Lemma members_of_column (key : frame.row -> option string)
      (p : frame.row -> bool) (k : string) (df : list frame.row) :
  frame.members k (map (fun r => (key r, frame.amount r)) (filter p df))
  = map frame.amount
        (filter (fun r => p r && match key r with
                                 | Some k' => String.eqb k' k
                                 | None => false
                                 end) df).
Proof.
  induction df as [| r df IH]; simpl; [reflexivity |].
  destruct (p r); simpl; [| exact IH].
  destruct (key r) as [k' |]; simpl; [| exact IH].
  destruct (String.eqb k' k); simpl; now rewrite IH.
Qed.

(** C1, as the code has it: the balance is the binary64 difference of
    the two pandas sums, income over the amounts of the rows whose
    type cell is Income and expense over those whose type cell is
    Expense; rows of any other type, or with no type, change nothing;
    and the comparison [income - expense == balance] is true exactly
    when that difference is not NaN. *)
Theorem balance_is_double_difference (df : list frame.row) :
  frame.balance Series_sum df
  = PrimFloat.sub
      (Series_sum (map frame.amount (filter (frame.has_type "Income") df)))
      (Series_sum (map frame.amount (filter (frame.has_type "Expense") df)))
  /\
  PrimFloat.eqb
    (PrimFloat.sub (frame.income Series_sum df) (frame.expense Series_sum df))
    (frame.balance Series_sum df)
  = negb (PrimFloat.is_nan (frame.balance Series_sum df)) /\
  (forall r before after,
      frame.has_type "Income" r = false ->
      frame.has_type "Expense" r = false ->
      frame.balance Series_sum (before ++ r :: after)
      = frame.balance Series_sum (before ++ after)).
Proof.
  split; [reflexivity |]. split.
  - unfold PrimFloat.is_nan. fold (frame.balance Series_sum df).
    now rewrite negb_involutive.
  - intros r before after Hi He.
    unfold frame.balance, frame.income, frame.expense.
    rewrite !filter_app. simpl. rewrite Hi, He. reflexivity.
Qed.

(** C2, as the code has it: the by-category Series is built from the
    Expense rows that have a category: its keys ascend and are exactly
    the categories such rows carry (an Expense row with no category is
    in no entry), and the value at a category is pandas' group sum of
    the amounts of the Expense rows of that category, in frame order.
    Nothing ties the sum of these values to the expense figure but the
    rounding of the two routines. *)
Theorem grouped_by_category_in_doubles (df : list frame.row) :
  frame.keys_ascending (frame.grouped group_sum df) /\
  (forall c, In c (map fst (frame.grouped group_sum df))
             <-> exists r, In r df /\ frame.type r = Some "Expense"%string
                           /\ frame.category r = Some c) /\
  (forall c v, In (c, v) (frame.grouped group_sum df) ->
     v = group_sum
           (map frame.amount
                (filter (fun r => frame.has_type "Expense" r
                                  && frame.has_category c r) df))).
Proof.
  unfold frame.grouped. split; [apply groupby_sum_ascending |]. split.
  - intro c. rewrite groupby_sum_keys. split.
    + intros [v Hin]. apply in_map_iff in Hin.
      destruct Hin as [r [Heq Hin]]. inversion Heq; subst.
      apply filter_In in Hin. destruct Hin as [Hin Ht].
      apply has_type_true in Ht. eauto.
    + intros [r [Hin [Ht Hc]]]. exists (frame.amount r).
      apply in_map_iff. exists r. split; [now rewrite Hc |].
      apply filter_In. split; [exact Hin | now apply has_type_true].
  - intros c v Hin. apply groupby_sum_In in Hin. destruct Hin as [-> _].
    now rewrite members_of_column.
Qed.

(** X9: the pie chart's Series (amounts grouped by type) has one entry
    per type value that some row carries, in ascending order, rows
    with no type left out; the value at a type is pandas' group sum of
    the amounts of the rows of that type in frame order, so the Income
    and Expense entries and the income and expense figures are sums of
    the same two columns, taken by two routines. *)
Theorem totals_by_type_in_doubles (df : list frame.row) :
  frame.keys_ascending (frame.totals group_sum df) /\
  (forall k, In k (map fst (frame.totals group_sum df))
             <-> exists r, In r df /\ frame.type r = Some k) /\
  (forall k v, In (k, v) (frame.totals group_sum df) ->
     v = group_sum (map frame.amount (filter (frame.has_type k) df))) /\
  frame.income Series_sum df
  = Series_sum (map frame.amount (filter (frame.has_type "Income") df)) /\
  frame.expense Series_sum df
  = Series_sum (map frame.amount (filter (frame.has_type "Expense") df)).
Proof.
  unfold frame.totals. split; [apply groupby_sum_ascending |].
  split; [| split; [| split; reflexivity]].
  - intro k. rewrite groupby_sum_keys. split.
    + intros [v Hin]. apply in_map_iff in Hin.
      destruct Hin as [r [Heq Hin]]. inversion Heq; subst. eauto.
    + intros [r [Hin Ht]]. exists (frame.amount r).
      apply in_map_iff. exists r. split; [now rewrite Ht | exact Hin].
  - intros k v Hin. apply groupby_sum_In in Hin. destruct Hin as [-> _].
    f_equal. clear. induction df as [| r df IH]; simpl; [reflexivity |].
    unfold frame.has_type at 1.
    destruct (frame.type r) as [t |]; simpl; [| exact IH].
    destruct (String.eqb t k); simpl; now rewrite IH.
Qed.



End FrameAggregates.

Section FrameCounterexamples.

Import PrimFloat.
Local Open Scope list_scope.

(** The claim of C1 fails on the code when both sums overflow: two
    incomes and two expenses of [2^1023] give income and expense both
    infinite, the balance [inf - inf] is NaN, and the comparison
    [income - expense == balance] is false. *)
Lemma balance_comparison_fails_on_overflow :
  frame.income frame.example_sum frame.overflow_rows = infinity /\
  frame.expense frame.example_sum frame.overflow_rows = infinity /\
  is_nan (frame.balance frame.example_sum frame.overflow_rows) = true /\
  PrimFloat.eqb
    (PrimFloat.sub (frame.income frame.example_sum frame.overflow_rows)
                   (frame.expense frame.example_sum frame.overflow_rows))
    (frame.balance frame.example_sum frame.overflow_rows)
  = false.
Proof. repeat split; vm_compute; reflexivity. Qed.

(** The claim of C2 fails on the code.  Rounding: for travel [1],
    food [2^53], travel [1], the entries are food [2^53] and travel [2],
    which add up to [2^53 + 2], while the expense figure is [2^53],
    each [1] being lost against [2^53]; for food [0.1], travel [0.2]
    and [0.3], the entries [0.1] and [0.5] add up to the double next
    to [0.6], while the expense figure is the double after it,
    [0.6000000000000001].  Missing category: an expense of [5] with no
    category is in no entry, so the entries add up to [0] while the
    expense figure is [5]. *)
Lemma grouped_values_do_not_add_up :
  (frame.grouped frame.example_sum frame.rounding_rows
   = [("Food"%string, 9007199254740992%float); ("Travel"%string, 2%float)] /\
   frame.example_sum
     (map snd (frame.grouped frame.example_sum frame.rounding_rows))
   = 9007199254740994%float /\
   frame.expense frame.example_sum frame.rounding_rows
   = 9007199254740992%float /\
   PrimFloat.eqb
     (frame.example_sum
        (map snd (frame.grouped frame.example_sum frame.rounding_rows)))
     (frame.expense frame.example_sum frame.rounding_rows)
   = false) /\
  (frame.grouped frame.example_sum frame.decimal_rows
   = [("Food"%string, 0x1.999999999999ap-4%float);
      ("Travel"%string, 0.5%float)] /\
   frame.example_sum
     (map snd (frame.grouped frame.example_sum frame.decimal_rows))
   = 0x1.3333333333333p-1%float /\
   frame.expense frame.example_sum frame.decimal_rows
   = 0x1.3333333333334p-1%float /\
   PrimFloat.eqb
     (frame.example_sum
        (map snd (frame.grouped frame.example_sum frame.decimal_rows)))
     (frame.expense frame.example_sum frame.decimal_rows)
   = false) /\
  (frame.grouped frame.example_sum frame.uncategorised_rows = [] /\
   frame.expense frame.example_sum frame.uncategorised_rows = 5%float /\
   PrimFloat.eqb
     (frame.example_sum
        (map snd (frame.grouped frame.example_sum frame.uncategorised_rows)))
     (frame.expense frame.example_sum frame.uncategorised_rows)
   = false).
Proof. repeat split; vm_compute; reflexivity. Qed.

End FrameCounterexamples.

(** * The download button *)

Section DownloadProperties.

Local Open Scope list_scope.

Variable sha256_hexdigest : string -> string.
Variable float_repr : Q -> string.
Variable pie_chart_raises : list transactions.row -> bool.

Lemma to_csv_text (df : list transactions.row) :
  string_of_list_byte (encode_utf8 (to_csv float_repr df))
  = to_csv float_repr df /\
  first_line (to_csv float_repr df)
  = "id,user_id,date,category,description,type,amount"%string /\
  count_records false (to_csv float_repr df) = S (List.length df).
Proof.
  split; [apply string_of_list_byte_of_string |]. split; [reflexivity |].
  unfold to_csv. rewrite count_records_record, count_records_rows.
  reflexivity.
Qed.

Lemma empty_false {A : Type} (l : list A) :
  negb (empty l) = true <-> l <> [].
Proof.
  destruct l; simpl; split; intro H;
    try discriminate; try reflexivity; now contradiction H.
Qed.

(** What a run hands to the download button, in terms of the state
    the run leaves. *)
Lemma download_csv_script (p : pressed) (s : session.state) (db : database) :
  let o := script sha256_hexdigest float_repr pie_chart_raises p s db in
  download_csv o
  = if session.logged_in (session_after o) then
      match session.user_id (session_after o) with
      | Some user_id =>
          let df := get_transactions user_id (database_after o) in
          if negb (empty df) && negb (pie_chart_raises df)
             && match daily_expense df with Some _ => true | None => false end
          then Some (encode_utf8 (to_csv float_repr df))
          else None
      | None => None
      end
    else None.
Proof.
  cbv zeta. unfold script.
  destruct (authentication sha256_hexdigest p s db) as [[s1 db1] msgs].
  unfold main_app.
  destruct (session.logged_in s1) eqn:Hlogged; simpl;
    [| now rewrite Hlogged].
  destruct (session.user_id s1) as [uid |] eqn:Huid; simpl;
    [| now rewrite Hlogged, Huid].
  destruct (save_button p uid db1) as [db2 saved].
  destruct (negb (empty (get_transactions uid db2))) eqn:Hempty; simpl;
    [| now rewrite Hlogged, Huid, Hempty].
  unfold show_summary.
  destruct (pie_chart_raises (get_transactions uid db2)) eqn:Hpie; simpl;
    [now rewrite Hlogged, Huid, Hempty, Hpie |].
  destruct (daily_expense (get_transactions uid db2)) eqn:Hdaily; simpl;
    now rewrite Hlogged, Huid, Hempty, Hpie, Hdaily.
Qed.

(** C6, as the code has it: a run offers the export only when it
    reaches the download button, that is when the session is logged
    in, the user has at least one transaction, and neither the pie
    chart block nor the date parsing of the trend chart raised before
    it; in particular with zero transactions there is no export at
    all.  When offered, the export is the UTF-8 bytes of a text whose
    first line is the header
    [id,user_id,date,category,description,type,amount] (all columns of
    the table) and that holds one record per transaction of the user
    after it. *)
Theorem download_csv_format (p : pressed) (s : session.state) (db : database) :
  let o := script sha256_hexdigest float_repr pie_chart_raises p s db in
  (forall bytes,
      download_csv o = Some bytes ->
      exists user_id,
        session.logged_in (session_after o) = true /\
        session.user_id (session_after o) = Some user_id /\
        get_transactions user_id (database_after o) <> [] /\
        pie_chart_raises (get_transactions user_id (database_after o))
        = false /\
        daily_expense (get_transactions user_id (database_after o))
        <> None /\
        bytes = encode_utf8
                  (to_csv float_repr
                     (get_transactions user_id (database_after o))) /\
        string_of_list_byte bytes
        = to_csv float_repr (get_transactions user_id (database_after o)) /\
        first_line (string_of_list_byte bytes)
        = "id,user_id,date,category,description,type,amount"%string /\
        count_records false (string_of_list_byte bytes)
        = S (List.length (get_transactions user_id (database_after o)))) /\
  (forall user_id,
      session.user_id (session_after o) = Some user_id ->
      get_transactions user_id (database_after o) = [] ->
      download_csv o = None) /\
  (forall user_id,
      session.logged_in (session_after o) = true ->
      session.user_id (session_after o) = Some user_id ->
      get_transactions user_id (database_after o) <> [] ->
      pie_chart_raises (get_transactions user_id (database_after o))
      = false ->
      daily_expense (get_transactions user_id (database_after o)) <> None ->
      download_csv o
      = Some (encode_utf8
                (to_csv float_repr
                   (get_transactions user_id (database_after o))))).
Proof.
  cbv zeta. rewrite download_csv_script. cbv zeta.
  generalize (session_after
                (script sha256_hexdigest float_repr pie_chart_raises p s db))
    as s1.
  generalize (database_after
                (script sha256_hexdigest float_repr pie_chart_raises p s db))
    as db1.
  intros db1 s1. split; [| split].
  - intros bytes H.
    destruct (session.logged_in s1); [| discriminate].
    destruct (session.user_id s1) as [uid |]; [| discriminate].
    cbv zeta in H. exists uid.
    destruct (negb (empty (get_transactions uid db1))) eqn:Hempty;
      [| discriminate].
    destruct (pie_chart_raises (get_transactions uid db1)) eqn:Hpie;
      [discriminate |].
    destruct (daily_expense (get_transactions uid db1)) eqn:Hdaily;
      [| discriminate].
    simpl in H. inversion H; subst bytes.
    destruct (to_csv_text (get_transactions uid db1)) as (H1 & H2 & H3).
    split; [reflexivity |]. split; [reflexivity |].
    split; [now apply empty_false |]. split; [reflexivity |].
    split; [discriminate |]. split; [reflexivity |].
    split; [exact H1 |]. split; now rewrite H1.
  - intros uid Huid Hnil. rewrite Huid. cbv zeta. rewrite Hnil. simpl.
    destruct (session.logged_in s1); reflexivity.
  - intros uid Hlogged Huid Hne Hpie Hdaily.
    rewrite Hlogged, Huid. cbv zeta.
    apply empty_false in Hne. rewrite Hne, Hpie. simpl.
    destruct (daily_expense (get_transactions uid db1));
      [reflexivity | now contradiction Hdaily].
Qed.

End DownloadProperties.

(** The claim of C6 fails on the code twice.  Alice, logged in with no
    transaction yet, reruns the page: no export is offered, not a file
    with a header line.  After she has saved a lunch the export is
    offered, and its header is the seven-column line, not the
    five-column one. *)
Lemma export_is_not_the_five_column_file :
  download_csv
    (script example_digest example_float_repr example_pie_chart_raises
       no_button (session.mk true (Some 1)) (store alice_logged_in))
  = None /\
  download_csv
    (script example_digest example_float_repr example_pie_chart_raises
       no_button (session.mk true (Some 1)) (store alice_world))
  = Some (encode_utf8
            ("id,user_id,date,category,description,type,amount"
             ++ String line_feed
               ("1,1,2024-03-15 13:30,Food,lunch,Expense,150.0"
             ++ String line_feed EmptyString))) /\
  first_line
    ("id,user_id,date,category,description,type,amount"
     ++ String line_feed
       ("1,1,2024-03-15 13:30,Food,lunch,Expense,150.0"
     ++ String line_feed EmptyString))
  <> String.concat "," displayed_columns.
Proof.
  split; [vm_compute; reflexivity |].
  split; [vm_compute; reflexivity |].
  vm_compute. discriminate.
Qed.

(** * The save handler on a buffer with missing cells *)

Section EditorProperties.

Lemma editor_add_transactions_written (user_id : Z) (Date : string)
      (df : list data_editor.row) (l : data_editor.ledger) :
  data_editor.add_transactions user_id Date df l
  = data_editor.mk_ledger
      (data_editor.table l
       ++ data_editor.written user_id Date (data_editor.seq l) df)%list
      (data_editor.seq l + Z.of_nat (List.length df)).
Proof.
  unfold data_editor.add_transactions. revert l.
  induction df as [| r df IH]; intro l.
  - simpl. rewrite app_nil_r, Z.add_0_r. now destruct l.
  - cbn [fold_left]. rewrite IH.
    cbn [data_editor.insert_transaction data_editor.table data_editor.seq
         data_editor.written].
    rewrite <- app_assoc. cbn [app]. f_equal.
    cbn [List.length]. lia.
Qed.

Lemma editor_written_length (user_id : Z) (Date : string) (seq : Z)
      (df : list data_editor.row) :
  List.length (data_editor.written user_id Date seq df) = List.length df.
Proof.
  revert seq. induction df as [| r df IH]; intro seq; simpl;
    [reflexivity | now rewrite IH].
Qed.

Lemma editor_written_entered (user_id : Z) (Date : string) (seq : Z)
      (df : list data_editor.row) :
  map data_editor.entered (data_editor.written user_id Date seq df)
  = map data_editor.cells df.
Proof.
  revert seq. induction df as [| r df IH]; intro seq; simpl;
    [reflexivity | now rewrite IH].
Qed.

Lemma editor_written_ids (user_id : Z) (Date : string) (seq : Z)
      (df : list data_editor.row) :
  map data_editor.id (data_editor.written user_id Date seq df)
  = next_ids seq (List.length df).
Proof.
  revert seq. induction df as [| r df IH]; intro seq; simpl;
    [reflexivity | now rewrite IH].
Qed.

Lemma editor_written_owner (user_id : Z) (Date : string) (seq : Z)
      (df : list data_editor.row) :
  Forall (fun t => data_editor.user_id t = user_id
                   /\ data_editor.date t = Date)
         (data_editor.written user_id Date seq df).
Proof.
  revert seq. induction df as [| r df IH]; intro seq; simpl; constructor.
  - split; reflexivity.
  - apply IH.
Qed.

Lemma Description_differs_false (r : data_editor.row) :
  data_editor.Description_differs r = false
  <-> data_editor.Description r = Some EmptyString.
Proof.
  unfold data_editor.Description_differs.
  destruct (data_editor.Description r) as [d |].
  - destruct (String.eqb_spec d EmptyString) as [-> | Hd]; simpl.
    + split; reflexivity.
    + split; [discriminate | intro H; inversion H; contradiction].
  - split; discriminate.
Qed.

Lemma editor_drop_empty_description_In (edited_df : list data_editor.row)
      (r : data_editor.row) :
  In r (data_editor.drop_empty_description edited_df)
  <-> In r edited_df /\ data_editor.Description r <> Some EmptyString.
Proof.
  unfold data_editor.drop_empty_description. rewrite filter_In.
  pose proof (Description_differs_false r) as H.
  destruct (data_editor.Description_differs r).
  - split; intros [Hin _]; (split; [exact Hin |]); [| reflexivity].
    intro E. apply H in E. discriminate.
  - split; intros [Hin E]; [discriminate |].
    exfalso. apply E, H. reflexivity.
Qed.

Lemma editor_drop_empty_description_empty
      (edited_df : list data_editor.row) :
  data_editor.drop_empty_description edited_df = []
  <-> forall r, In r edited_df
                -> data_editor.Description r = Some EmptyString.
Proof.
  split.
  - intros E r Hin. apply Description_differs_false.
    destruct (data_editor.Description_differs r) eqn:D; [| reflexivity].
    exfalso.
    assert (Hr : In r (data_editor.drop_empty_description edited_df)).
    { apply filter_In. now split. }
    rewrite E in Hr. contradiction.
  - intro Hall. unfold data_editor.drop_empty_description.
    induction edited_df as [| r rs IH]; simpl; [reflexivity |].
    rewrite (proj2 (Description_differs_false r) (Hall r (or_introl eq_refl))).
    apply IH. intros r' Hin. apply Hall. now right.
Qed.

Lemma editor_save_button_table (now : datetime) (user_id : Z)
      (edited_df : list data_editor.row) (l : data_editor.ledger) :
  data_editor.table (fst (data_editor.save_button now user_id edited_df l))
  = (data_editor.table l
     ++ data_editor.written user_id (strftime_minute now) (data_editor.seq l)
          (data_editor.drop_empty_description edited_df))%list.
Proof.
  unfold data_editor.save_button.
  destruct (data_editor.drop_empty_description edited_df) as [| r rs] eqn:E.
  - simpl. now rewrite app_nil_r.
  - cbn [empty negb fst]. now rewrite editor_add_transactions_written.
Qed.

(** X7: a save leaves the table as it was, and shows no message, when
    every Description cell of the buffer holds the empty string (the
    untouched template, or a buffer without rows); and only then: a
    row whose Description is anything else, a missing cell included,
    makes the table grow. *)
Theorem save_button_writes_nothing (now : datetime) (user_id : Z)
        (edited_df : list data_editor.row) (l : data_editor.ledger) :
  ((forall r, In r edited_df
              -> data_editor.Description r = Some EmptyString)
   <-> data_editor.save_button now user_id edited_df l = (l, [])) /\
  ((exists r, In r edited_df
              /\ data_editor.Description r <> Some EmptyString)
   <-> (List.length (data_editor.table l)
        < List.length
            (data_editor.table
               (fst (data_editor.save_button now user_id edited_df l))))%nat).
Proof.
  split.
  - rewrite <- editor_drop_empty_description_empty.
    unfold data_editor.save_button.
    destruct (data_editor.drop_empty_description edited_df) as [| r rs]; simpl.
    + split; reflexivity.
    + split; [discriminate |]. intro H. inversion H.
  - rewrite editor_save_button_table, length_app, editor_written_length.
    split.
    + intros [r Hr]. apply editor_drop_empty_description_In in Hr.
      destruct (data_editor.drop_empty_description edited_df);
        [contradiction |].
      simpl. lia.
    + intro Hlt.
      destruct (data_editor.drop_empty_description edited_df)
        as [| r rs] eqn:E; [simpl in Hlt; lia |].
      exists r. apply editor_drop_empty_description_In. rewrite E. now left.
Qed.

(** X8: a save adds, after the rows that were in the table, one row
    per buffer row whose Description cell is not the empty string (a
    missing cell is not), in buffer order.  Every added row carries
    the user's id, the same date cell (the clock reading cut to the
    minute) and the next ids in sequence; its category, description,
    type and amount are the cells of its buffer row, NULL where the
    cell is missing. *)
Theorem save_button_one_timestamp (now : datetime) (user_id : Z)
        (edited_df : list data_editor.row) (l : data_editor.ledger) :
  (forall r, In r (data_editor.drop_empty_description edited_df)
             <-> In r edited_df
                 /\ data_editor.Description r <> Some EmptyString) /\
  exists rows,
    data_editor.table (fst (data_editor.save_button now user_id edited_df l))
    = (data_editor.table l ++ rows)%list /\
    map data_editor.entered rows
    = map data_editor.cells (data_editor.drop_empty_description edited_df) /\
    map data_editor.id rows
    = next_ids (data_editor.seq l)
        (List.length (data_editor.drop_empty_description edited_df)) /\
    Forall (fun t => data_editor.user_id t = user_id
                     /\ data_editor.date t = strftime_minute now) rows.
Proof.
  split; [intro r; apply editor_drop_empty_description_In |].
  exists (data_editor.written user_id (strftime_minute now)
            (data_editor.seq l)
            (data_editor.drop_empty_description edited_df)).
  split; [apply editor_save_button_table |].
  split; [apply editor_written_entered |].
  split; [apply editor_written_ids | apply editor_written_owner].
Qed.

(** X20: a save makes the table grow by exactly the number of buffer
    rows whose Description cell is not the empty string, rows with a
    missing Description counted; it shows the saved message with that
    number when it is positive and no message when it is zero. *)
Theorem saved_message_counts_written_rows (now : datetime) (user_id : Z)
        (edited_df : list data_editor.row) (l : data_editor.ledger) :
  let n := List.length (filter (fun r =>
             match data_editor.Description r with
             | Some d => negb (String.eqb d EmptyString)
             | None => true
             end) edited_df) in
  List.length
    (data_editor.table (fst (data_editor.save_button now user_id edited_df l)))
  = (List.length (data_editor.table l) + n)%nat /\
  snd (data_editor.save_button now user_id edited_df l)
  = match n with
    | O => []
    | S _ => [transactions_saved n]
    end.
Proof.
  cbv zeta.
  change (filter _ edited_df)
    with (data_editor.drop_empty_description edited_df).
  split.
  - now rewrite editor_save_button_table, length_app, editor_written_length.
  - unfold data_editor.save_button.
    destruct (data_editor.drop_empty_description edited_df) as [| r rs];
      reflexivity.
Qed.

Lemma of_database_add_transactions (user_id : Z) (Date : string)
      (df : list editor.row) (db : database) :
  data_editor.of_database
    (add_transactions user_id (map (with_Date Date) df) db)
  = data_editor.add_transactions user_id Date (map data_editor.filled df)
      (data_editor.of_database db).
Proof.
  unfold add_transactions, data_editor.add_transactions. revert db.
  induction df as [| r df IH]; intro db; [reflexivity |].
  cbn [map fold_left]. rewrite IH. f_equal.
  unfold data_editor.of_database, insert_transaction,
    data_editor.insert_transaction.
  cbn [transactions_table transactions_seq data_editor.table data_editor.seq].
  now rewrite map_app.
Qed.

(** On a buffer whose cells are all filled in, the handler does what
    the cell-complete model of it does: the same rows are written and
    the same message is shown. *)
Lemma save_button_of_filled_buffer (now : datetime) (user_id : Z)
      (edited_df : list editor.row) (db : database) :
  data_editor.save_button now user_id (map data_editor.filled edited_df)
    (data_editor.of_database db)
  = (data_editor.of_database (save_transactions now user_id edited_df db),
     snd (save_button (Save_Transactions edited_df now) user_id db)).
Proof.
  assert (Hdrop :
    data_editor.drop_empty_description (map data_editor.filled edited_df)
    = map data_editor.filled (drop_empty_description edited_df)).
  { unfold data_editor.drop_empty_description, drop_empty_description.
    induction edited_df as [| r rs IH]; simpl; [reflexivity |].
    unfold data_editor.Description_differs at 1.
    cbn [data_editor.filled data_editor.Description].
    destruct (negb (String.eqb (editor.Description r) EmptyString));
      simpl; now rewrite IH. }
  unfold data_editor.save_button, save_button, save_transactions.
  rewrite Hdrop.
  destruct (drop_empty_description edited_df) as [| r rs] eqn:E.
  - reflexivity.
  - cbn [map empty negb snd]. f_equal.
    + symmetry. apply (of_database_add_transactions user_id
                         (strftime_minute now) (r :: rs) db).
    + cbn [List.length]. now rewrite length_map.
Qed.

End EditorProperties.

(** The template followed by a row that was added and left as it came:
    one row of NULLs is written and the message counts it. *)
Lemma added_row_is_stored :
  data_editor.save_button example_now 1
    (data_editor.template_df ++ [data_editor.added_row])%list
    (data_editor.mk_ledger [] 0)
  = (data_editor.mk_ledger
       [data_editor.mk_stored 1 1 "2024-03-15 10:30" None None None None] 1,
     [transactions_saved 1]).
Proof. vm_compute. reflexivity. Qed.
